(** * The task API server of the Cline extension (src/services/api/ApiServer.ts)

    A shallow embedding of the two request handlers of [ApiServer],
    [handleNewTask] and [handleContinueTask], and of the alias registry
    [taskIdMap] they share, followed by the properties the specification
    states about them.

    The handlers are JavaScript [async] functions that read the parsed request
    body, call the editor through [vscode.commands.executeCommand], update a
    [Map] and answer through [res.status(..).json(..)], all inside a
    [try]/[catch].  They are embedded in a state-and-exception monad over a
    [World] that holds the map, the state of the editor, the trace of the
    commands issued and the log.

    Scope of the model.  The body fields are strings when present, as the
    type of [taskIdMap] and the cast of the task identifier declare them.  A
    handler runs from its first line to its response without another handler
    running in between: the interleaving of two requests at an [await] is not
    modelled.  [Logger.log] and [res.json] do not throw. *)

From stdpp Require Import base option strings pretty list gmap fin_maps.

Local Open Scope string_scope.
Local Open Scope list_scope.
Local Open Scope Z_scope.

(** ** JavaScript values *)

(** The body fields [description], [customId], [taskId] and [message] are
    strings when present.  A field is [None] when it is [undefined] or [null]:
    the handlers only test such a field for truthiness before they use it, and
    both are falsy. *)
Definition Field := option string.

(** JavaScript truthiness of a string field: [undefined], [null] and the empty
    string are falsy, every other string is truthy. *)
Definition truthy (v : Field) : bool :=
  match v with
  | Some (String _ _) => true
  | Some EmptyString => false
  | None => false
  end.

(** The string held by a field that was tested truthy. *)
Definition str (v : Field) : string := default "" v.

(** Image payloads are opaque to the server (data URLs). *)
Definition Image := string.

(** [images || []]: an absent field becomes the empty array; an array, empty
    or not, is truthy and is passed as it is. *)
Definition or_empty (images : option (list Image)) : list Image :=
  default [] images.

(** JSON values: payloads returned by the editor and bodies of responses. *)
#[local] Set Warnings "-register-all".
Inductive Json :=
| JNull
| JBool (b : bool)
| JNumber (n : Z)
| JString (s : string)
| JArray (items : list Json)
| JObject (props : list (string * Json)).

(** An object literal sent through [res.json]: a property whose value is
    [undefined] ([None]) is left out by the serialisation. *)
Definition obj (props : list (string * option Json)) : Json :=
  JObject (omap (λ p, pair p.1 <$> p.2) props).

(** [string | null] as a JSON value. *)
Definition json_of_id (v : option string) : Json :=
  match v with Some s => JString s | None => JNull end.

(** ** Thrown values *)

(** What a rejected command carries: an [Error] with its [name] and
    [message], or another value. *)
Inductive Thrown :=
| ThrownError (name message : string)
| ThrownString (s : string)
| ThrownBool (b : bool)
| ThrownNull
| ThrownUndefined
| ThrownObject.

(** [String(error)], which is also what a template literal prints. *)
Definition String_ (error : Thrown) : string :=
  match error with
  | ThrownError name message =>
      match name, message with
      | "", _ => message
      | _, "" => name
      | _, _ => name +:+ ": " +:+ message
      end
  | ThrownString s => s
  | ThrownBool true => "true"
  | ThrownBool false => "false"
  | ThrownNull => "null"
  | ThrownUndefined => "undefined"
  | ThrownObject => "[object Object]"
  end.

(** [error instanceof Error ? error.message : String(error)] *)
Definition error_text (error : Thrown) : string :=
  match error with
  | ThrownError _ message => message
  | _ => String_ error
  end.

(** ** The editor's commands *)

(** The two commands the server issues, with their argument objects. *)
Inductive Command :=
| cline_startNewTask (task : string) (images : list Image)
| cline_addMessageToTask (taskId message : string) (images : list Image).

(** A settled promise. *)
Inductive Outcome (A : Type) :=
| Resolved (a : A)
| Rejected (error : Thrown).
Arguments Resolved {A} a.
Arguments Rejected {A} error.

(** The editor behind [vscode.commands.executeCommand]: a state of its own and
    one transition per command.  [cline.startNewTask] answers [string | null],
    [cline.addMessageToTask] a payload that may be [undefined]. *)
Class Host (H : Type) := {
  startNewTask : string → list Image → H → Outcome (option string) * H;
  addMessageToTask : string → string → list Image → H → Outcome (option Json) * H
}.

(** ** Requests and responses *)

(** [req.body], with the fields the handlers destructure. *)
Record Body := {
  description : Field;
  images : option (list Image);
  customId : Field;
  taskId : Field;
  message : Field
}.

(** [res.status(status).json(body)] *)
Record Response := {
  status : Z;
  body : Json
}.

Inductive Request :=
| GET_health
| POST_tasks_new (req : Body)
| POST_tasks_continue (req : Body).

(** ** The world and its monad *)

(** The result of running a piece of handler code: a value, or a value thrown
    and not caught. *)
Inductive Result (A : Type) :=
| Val (a : A)
| Exn (error : Thrown).
Arguments Val {A} a.
Arguments Exn {A} error.

Section ApiServer.
Context {H : Type} `{!Host H}.

(** [taskIdMap] is the private field of the server, [host] the state of the
    editor, [calls] the commands issued so far (oldest first) and [logs] the
    lines given to [Logger.log]. *)
Record World := {
  taskIdMap : gmap string string;
  host : H;
  calls : list Command;
  logs : list string
}.

Definition M (A : Type) : Type := World → Result A * World.

#[local] Instance M_ret : MRet M := λ A a w, (Val a, w).
#[local] Instance M_bind : MBind M := λ A B f m w,
  match m w with
  | (Val a, w') => f a w'
  | (Exn e, w') => (Exn e, w')
  end.

(** Running handler code from a world. *)
Definition run {A} (m : M A) (w : World) : Result A * World := m w.

(** [try { body } catch (error) { handler }] *)
Definition try_catch {A} (body : M A) (handler : Thrown → M A) : M A := λ w,
  match body w with
  | (Val a, w') => (Val a, w')
  | (Exn e, w') => handler e w'
  end.

(** [await vscode.commands.executeCommand("cline.startNewTask", {task, images})] *)
Definition executeCommand_startNewTask (task : string) (images : list Image)
  : M (option string) := λ w,
  let (outcome, h) := startNewTask task images (host w) in
  let w' := {| taskIdMap := taskIdMap w; host := h;
               calls := calls w ++ [cline_startNewTask task images];
               logs := logs w |} in
  match outcome with
  | Resolved v => (Val v, w')
  | Rejected e => (Exn e, w')
  end.

(** [await vscode.commands.executeCommand("cline.addMessageToTask", {taskId, message, images})] *)
Definition executeCommand_addMessageToTask (taskId message : string)
    (images : list Image) : M (option Json) := λ w,
  let (outcome, h) := addMessageToTask taskId message images (host w) in
  let w' := {| taskIdMap := taskIdMap w; host := h;
               calls := calls w ++ [cline_addMessageToTask taskId message images];
               logs := logs w |} in
  match outcome with
  | Resolved v => (Val v, w')
  | Rejected e => (Exn e, w')
  end.

(** [new ApiServer()] beside an editor in state [h]: the map starts empty. *)
Definition new_ApiServer (h : H) : World :=
  {| taskIdMap := ∅; host := h; calls := []; logs := [] |}.

(** [Logger.log(line)] *)
Definition Logger_log (line : string) : M unit := λ w,
  (Val tt, {| taskIdMap := taskIdMap w; host := host w; calls := calls w;
              logs := logs w ++ [line] |}).

(** [this.taskIdMap.set(key, value)] *)
Definition taskIdMap_set (key value : string) : M unit := λ w,
  (Val tt, {| taskIdMap := <[key := value]> (taskIdMap w); host := host w;
              calls := calls w; logs := logs w |}).

(** [this.taskIdMap.has(key)] *)
Definition taskIdMap_has (key : string) : M bool := λ w,
  (Val (bool_decide (is_Some (taskIdMap w !! key))), w).

(** [this.taskIdMap.get(key)] *)
Definition taskIdMap_get (key : string) : M Field := λ w,
  (Val (taskIdMap w !! key), w).

(** ** The handlers *)

Definition handleNewTask (req : Body) : M Response :=
  try_catch
    (let description := description req in
     let images := images req in
     let customId := customId req in
     if negb (truthy description) then
       mret {| status := 400;
               body := obj [("error", Some (JString "Task description is required"))] |}
     else
       taskId ← executeCommand_startNewTask (str description) (or_empty images);
       _ ← (if truthy customId && truthy taskId
            then taskIdMap_set (str customId) (str taskId)
            else mret tt);
       mret {| status := 200;
               body := obj [("success", Some (JBool true));
                            ("taskId", Some (json_of_id taskId));
                            ("customId", if truthy customId
                                         then Some (JString (str customId))
                                         else None)] |})
    (λ error,
       _ ← Logger_log ("API error creating task: " +:+ String_ error);
       mret {| status := 500;
               body := obj [("error", Some (JString (error_text error)))] |}).

Definition handleContinueTask (req : Body) : M Response :=
  try_catch
    (let taskId := taskId req in
     let customId := customId req in
     let message := message req in
     let images := images req in
     if negb (truthy message) then
       mret {| status := 400;
               body := obj [("error", Some (JString "Message is required"))] |}
     else
       known ← (if truthy customId && negb (truthy taskId)
                then taskIdMap_has (str customId)
                else mret false);
       actualTaskId ← (if known : bool then taskIdMap_get (str customId)
                       else mret taskId);
       if negb (truthy actualTaskId) then
         mret {| status := 400;
                 body := obj [("error",
                               Some (JString "Valid taskId or customId is required"))] |}
       else
         result ← executeCommand_addMessageToTask
                    (str actualTaskId) (str message) (or_empty images);
         mret {| status := 200;
                 body := obj [("success", Some (JBool true)); ("result", result)] |})
    (λ error,
       _ ← Logger_log ("API error continuing task: " +:+ String_ error);
       mret {| status := 500;
               body := obj [("error", Some (JString (error_text error)))] |}).

(** The routes of [setupRoutes]. *)
Definition route (r : Request) : M Response :=
  match r with
  | GET_health =>
      mret {| status := 200; body := obj [("status", Some (JString "ok"))] |}
  | POST_tasks_new req => handleNewTask req
  | POST_tasks_continue req => handleContinueTask req
  end.

(** The requests of a list, served one after the other. *)
Fixpoint serve (rs : list Request) (w : World) : list (Result Response) * World :=
  match rs with
  | [] => ([], w)
  | r :: rs' =>
      let (out, w1) := run (route r) w in
      let (outs, w2) := serve rs' w1 in
      (out :: outs, w2)
  end.

(** The worlds a server can be in: a fresh one, and what a request makes of a
    world the server can be in. *)
Inductive reachable : World → Prop :=
| reachable_new (h : H) : reachable (new_ApiServer h)
| reachable_route (r : Request) (w : World) :
    reachable w → reachable (run (route r) w).2.

(** The value [handleContinueTask] leaves in its variable [actualTaskId] when
    the map is [m]. *)
Definition actualTaskId (req : Body) (m : gmap string string) : Field :=
  if truthy (customId req) && negb (truthy (taskId req))
     && bool_decide (is_Some (m !! str (customId req)))
  then m !! str (customId req)
  else taskId req.

(** The three shapes of response: [{error}], the answer to a task created and
    the answer to a task continued. *)
Definition error_response (code : Z) (text : string) : Response :=
  {| status := code; body := JObject [("error", JString text)] |}.

Definition created (id : option string) (customId : Field) : Response :=
  {| status := 200;
     body := obj [("success", Some (JBool true));
                  ("taskId", Some (json_of_id id));
                  ("customId", if truthy customId then Some (JString (str customId))
                               else None)] |}.

Definition continued (result : option Json) : Response :=
  {| status := 200;
     body := obj [("success", Some (JBool true)); ("result", result)] |}.

End ApiServer.

Arguments World H : clear implicits.

(** ** An editor that follows a script

    The state of this editor is what it still has to answer: [tasks] to
    [cline.startNewTask] and [results] to [cline.addMessageToTask], one entry
    per call.  With nothing left it answers [null] and [undefined]. *)
Record Script := {
  tasks : list (Outcome (option string));
  results : list (Outcome (option Json))
}.

#[export] Instance Script_host : Host Script := {|
  startNewTask _ _ s :=
    match tasks s with
    | [] => (Resolved None, s)
    | o :: os => (o, {| tasks := os; results := results s |})
    end;
  addMessageToTask _ _ _ s :=
    match results s with
    | [] => (Resolved None, s)
    | o :: os => (o, {| tasks := tasks s; results := os |})
    end
|}.

(** ** Requests and worlds used in the examples *)

(** [{}] *)
Definition no_body : Body :=
  {| description := None; images := None; customId := None; taskId := None;
     message := None |}.

(** [{description, customId}] *)
Definition new_task (description : string) (customId : Field) : Body :=
  {| description := Some description; images := None; customId := customId;
     taskId := None; message := None |}.

(** [{taskId, customId, message}] *)
Definition continue_task (taskId customId : Field) (message : string) : Body :=
  {| description := None; images := None; customId := customId;
     taskId := taskId; message := Some message |}.

(** A request body with its [taskId] removed. *)
Definition without_taskId (req : Body) : Body :=
  {| description := description req; images := images req;
     customId := customId req; taskId := None; message := message req |}.

(** A fresh server beside a scripted editor. *)
Definition fresh (tasks : list (Outcome (option string)))
    (results : list (Outcome (option Json))) : World Script :=
  new_ApiServer {| tasks := tasks; results := results |}.

(** A fresh server whose editor will answer [T1] to the first task. *)
Definition editor_T1 : World Script := fresh [Resolved (Some "T1")] [].

(** ... [T1] to the first task and [T2] to the second. *)
Definition editor_T1_T2 : World Script :=
  fresh [Resolved (Some "T1"); Resolved (Some "T2")] [].

(** ... the empty string as the identifier of the first task. *)
Definition editor_empty_id : World Script := fresh [Resolved (Some "")] [].

(** ... [null] to every task: there is no active webview. *)
Definition editor_idle : World Script := fresh [] [].

(** ... an [Error] to the first command of either kind. *)
Definition editor_failing : World Script :=
  fresh [Rejected (ThrownError "Error" "No active Cline instance")]
        [Rejected (ThrownError "Error" "No active Cline instance")].

(** The world after [{description: "fix bug", customId: "c1"}] was served by
    [editor_T1]: [c1] is bound to [T1]. *)
Definition bound_c1 : World Script :=
  (run (handleNewTask (new_task "fix bug" (Some "c1"))) editor_T1).2.

(** The world after [{description: "fix bug", customId: "c1"}] was served by
    [editor_T1_T2]: [c1] is bound to [T1] and the editor will answer [T2] to
    the next task and [null] to those after it. *)
Definition bound_c1_before_T2 : World Script :=
  (run (handleNewTask (new_task "fix bug" (Some "c1"))) editor_T1_T2).2.

(** A body that passes the validation of both handlers. *)
Definition failing_request : Body :=
  {| description := Some "fix bug"; images := None; customId := None;
     taskId := Some "T9"; message := Some "hi" |}.

(** * The life of the server: [start], [stop] and the singleton

    The rest of the file: the fields [server] and [port] of the class, its
    methods [start] and [stop], and the module-level [apiServerInstance] with
    [startApiServer] and [stopApiServer].  A callback that is called runs
    before anything else happens to the object; a promise whose callback is
    never called stays pending. *)

(** An [http.Server] object, known by a number. *)
Definition Handle := nat.

(** What the server asks of express and of [http.Server]. *)
Inductive NetCall :=
| app_listen (port : Z)
| server_close (s : Handle).

(** What [app.listen(port, callback)] does: it returns a server and the
    callback is called once it listens; it returns a server and the callback
    is never called; or it throws. *)
Inductive Listen :=
| ListenCalledBack (s : Handle)
| ListenReturned (s : Handle)
| ListenThrew (error : Thrown).

(** express and node's http behind [app.listen] and [server.close]: a state of
    its own and one transition per call.  [close] answers whether its callback
    is called. *)
Class Listener (L : Type) := {
  listen : Z → L → Listen * L;
  close : Handle → L → bool * L
}.

(** A promise of [void]: settled, or pending for ever ([None]). *)
Definition Promise := option (Outcome unit).

(** The fields of an [ApiServer] object. *)
Record Instance := {
  server : option Handle;
  port : Z;
  instance_taskIdMap : gmap string string
}.

(** The field initialisers, run by [new ApiServer()]. *)
Definition new_Instance : Instance :=
  {| server := None; port := 3000; instance_taskIdMap := ∅ |}.

Section Lifecycle.
Context {H : Type} `{!Host H} {L : Type} `{!Listener L}.

(** What lies around the object: the editor, the commands it was given, the
    log, the network and the calls made to it. *)
Record Env := {
  editor : H;
  commands : list Command;
  logged : list string;
  net : L;
  net_calls : list NetCall
}.

(** The world the handlers of an object see. *)
Definition world_of (this : Instance) (env : Env) : World H :=
  {| taskIdMap := instance_taskIdMap this; host := editor env;
     calls := commands env; logs := logged env |}.

(** [Logger.log(line)] *)
Definition log_line (line : string) (env : Env) : Env :=
  {| editor := editor env; commands := commands env;
     logged := logged env ++ [line]; net := net env;
     net_calls := net_calls env |}.

(** [this.server = s] *)
Definition set_server (s : option Handle) (this : Instance) : Instance :=
  {| server := s; port := port this;
     instance_taskIdMap := instance_taskIdMap this |}.

(** [public start(port: number = 3000): Promise<void>] *)
Definition ApiServer_start (port_arg : option Z) (this : Instance) (env : Env)
  : Promise * (Instance * Env) :=
  let this := {| server := server this; port := default 3000 port_arg;
                 instance_taskIdMap := instance_taskIdMap this |} in
  let (answer, n) := listen (port this) (net env) in
  let env := {| editor := editor env; commands := commands env;
                logged := logged env; net := n;
                net_calls := net_calls env ++ [app_listen (port this)] |} in
  match answer with
  | ListenCalledBack s =>
      (Some (Resolved tt),
       (set_server (Some s) this,
        log_line ("Cline API server started on port " +:+ pretty (port this)) env))
  | ListenReturned s => (None, (set_server (Some s) this, env))
  | ListenThrew error =>
      (Some (Rejected error),
       (this, log_line ("Error starting Cline API server: " +:+ String_ error) env))
  end.

(** [public stop(): Promise<void>] *)
Definition ApiServer_stop (this : Instance) (env : Env)
  : Promise * (Instance * Env) :=
  match server this with
  | Some s =>
      let (called_back, n) := close s (net env) in
      let env := {| editor := editor env; commands := commands env;
                    logged := logged env; net := n;
                    net_calls := net_calls env ++ [server_close s] |} in
      if called_back
      then (Some (Resolved tt),
            (set_server None this, log_line "Cline API server stopped" env))
      else (None, (this, env))
  | None => (Some (Resolved tt), (this, env))
  end.

(** A request routed to the handlers of an object. *)
Definition ApiServer_handle (r : Request) (this : Instance) (env : Env)
  : Result Response * (Instance * Env) :=
  let (out, w) := run (route r) (world_of this env) in
  (out,
   ({| server := server this; port := port this;
       instance_taskIdMap := taskIdMap w |},
    {| editor := host w; commands := calls w; logged := logs w;
       net := net env; net_calls := net_calls env |})).

(** The module: [apiServerInstance] and what lies around it. *)
Record Process := {
  apiServerInstance : option Instance;
  env : Env
}.

(** The module as loaded: [let apiServerInstance: ApiServer | null = null]. *)
Definition loaded (e : Env) : Process :=
  {| apiServerInstance := None; env := e |}.

(** [export function startApiServer(port: number = 3000): Promise<void>] *)
Definition startApiServer (port_arg : option Z) (p : Process) : Promise * Process :=
  let this := match apiServerInstance p with
              | Some this => this
              | None => new_Instance
              end in
  let '(promise, (this, e)) :=
    ApiServer_start (Some (default 3000 port_arg)) this (env p) in
  (promise, {| apiServerInstance := Some this; env := e |}).

(** [export function stopApiServer(): Promise<void>] *)
Definition stopApiServer (p : Process) : Promise * Process :=
  match apiServerInstance p with
  | Some this =>
      let '(promise, (this, e)) := ApiServer_stop this (env p) in
      (promise, {| apiServerInstance := Some this; env := e |})
  | None => (Some (Resolved tt), p)
  end.

(** What happens to the module: a call of one of its two functions, or a
    request that reaches the routes of the object, if there is one. *)
Inductive Event :=
| call_startApiServer (port_arg : option Z)
| call_stopApiServer
| request (r : Request).

Definition step (ev : Event) (p : Process) : Process :=
  match ev with
  | call_startApiServer port_arg => (startApiServer port_arg p).2
  | call_stopApiServer => (stopApiServer p).2
  | request r =>
      match apiServerInstance p with
      | Some this =>
          let '(_, (this, e)) := ApiServer_handle r this (env p) in
          {| apiServerInstance := Some this; env := e |}
      | None => p
      end
  end.

Definition steps (evs : list Event) (p : Process) : Process :=
  foldl (λ p ev, step ev p) p evs.

End Lifecycle.

Arguments Env H L : clear implicits.
Arguments Process H L : clear implicits.

(** ** A network that follows a script

    [listens] is what the next calls of [app.listen] do and [closes] whether
    the callbacks of the next calls of [server.close] are called.  With
    nothing left, [listen] calls back with the server [0] and [close] calls
    back. *)
Record NetScript := {
  listens : list Listen;
  closes : list bool
}.

#[export] Instance NetScript_listener : Listener NetScript := {|
  listen _ n :=
    match listens n with
    | [] => (ListenCalledBack 0%nat, n)
    | a :: rest => (a, {| listens := rest; closes := closes n |})
    end;
  close _ n :=
    match closes n with
    | [] => (true, n)
    | b :: rest => (b, {| listens := listens n; closes := rest |})
    end
|}.

(** The module as loaded, beside a scripted editor and a scripted network. *)
Definition loaded_with (tasks : list (Outcome (option string)))
    (listens : list Listen) : Process Script NetScript :=
  loaded {| editor := {| tasks := tasks; results := [] |}; commands := [];
            logged := [];
            net := {| listens := listens; closes := [] |}; net_calls := [] |}.

(** The environment of a module whose editor will answer [T1] to the first
    task and whose network does what [listens] says. *)
Definition env_with (listens : list Listen) : Env Script NetScript :=
  {| editor := {| tasks := [Resolved (Some "T1")]; results := [] |};
     commands := []; logged := [];
     net := {| listens := listens; closes := [] |}; net_calls := [] |}.

(** What [listen] throws at once on a port out of range. *)
Definition bad_port : Thrown :=
  ThrownError "RangeError"
    "options.port should be >= 0 and < 65536. Received type number (70000).".

(** An object that holds the server [7]. *)
Definition instance_7 : Instance :=
  {| server := Some 7%nat; port := 3000; instance_taskIdMap := ∅ |}.

(** The module after [startApiServer()] and
    [{description: "fix bug", customId: "c1"}]: the object listens and binds
    [c1] to [T1]. *)
Definition started_c1 : Process Script NetScript :=
  steps [call_startApiServer None;
         request (POST_tasks_new (new_task "fix bug" (Some "c1")))]
    (loaded (env_with [])).

(** ** The identifier an alias was last bound to

    What a caller can tell from the answers alone. *)

(** The alias and the identifier of a response that reports a binding: a 200
    with [success: true], a [taskId] that is a string and not empty, and the
    [customId] echoed.  Any other response reports none. *)
Definition binding_reported (resp : Response) : option (string * string) :=
  match body resp with
  | JObject [(k1, JBool true); (k2, JString t); (k3, JString a)] =>
      if decide (status resp = 200 ∧ k1 = "success" ∧ k2 = "taskId"
                 ∧ k3 = "customId" ∧ t ≠ "")
      then Some (a, t)
      else None
  | _ => None
  end.

(** The identifier the alias [a] was most recently bound to once the
    requests [rs] were served from the world [w], where [current] is what it
    was bound to before: each request that creates a task and whose response
    reports a binding of [a] replaces it; no other request does. *)
Fixpoint most_recently_bound {H : Type} `{!Host H} (a : string)
    (rs : list Request) (w : World H) (current : option string) : option string :=
  match rs with
  | [] => current
  | r :: rs' =>
      let (out, w1) := run (route r) w in
      let current' :=
        match r, out with
        | POST_tasks_new _, Val resp =>
            match binding_reported resp with
            | Some (a', t) => if decide (a' = a) then Some t else current
            | None => current
            end
        | _, _ => current
        end in
      most_recently_bound a rs' w1 current'
  end.

(** ** Notions used to state further properties *)

(** A world with another map in place of its own. *)
Definition with_taskIdMap {H : Type} (m : gmap string string) (w : World H)
  : World H :=
  {| taskIdMap := m; host := host w; calls := calls w; logs := logs w |}.

(** The requests that create a task. *)
Definition is_create (r : Request) : bool :=
  match r with
  | POST_tasks_new _ => true
  | _ => false
  end.

(** A command none of whose strings is empty. *)
Definition command_nonempty (c : Command) : Prop :=
  match c with
  | cline_startNewTask task _ => task ≠ ""
  | cline_addMessageToTask taskId message _ => taskId ≠ "" ∧ message ≠ ""
  end.

(** * Properties *)

Section Properties.
Context {H : Type} `{!Host H}.
Implicit Types (w : World H) (req : Body) (id : option string).

(** Unfolds a handler down to the transitions of the editor. *)
Ltac unfold_handler :=
  unfold run, handleNewTask, handleContinueTask, try_catch,
    executeCommand_startNewTask, executeCommand_addMessageToTask,
    taskIdMap_set, taskIdMap_has, taskIdMap_get, Logger_log,
    mbind, mret, M_bind, M_ret; cbn beta iota zeta.

(** ** What each handler does, case by case *)

Lemma handleNewTask_invalid req w :
  truthy (description req) = false →
  run (handleNewTask req) w
  = (Val (error_response 400 "Task description is required"), w).
Proof. intros Hd. unfold_handler. by rewrite Hd. Qed.

Lemma handleNewTask_resolved req w id h :
  truthy (description req) = true →
  startNewTask (str (description req)) (or_empty (images req)) (host w)
  = (Resolved id, h) →
  run (handleNewTask req) w
  = (Val (created id (customId req)),
     {| taskIdMap := if truthy (customId req) && truthy id
                     then <[str (customId req) := str id]> (taskIdMap w)
                     else taskIdMap w;
        host := h;
        calls := calls w ++ [cline_startNewTask (str (description req))
                                                (or_empty (images req))];
        logs := logs w |}).
Proof.
  intros Hd Hs. unfold_handler. rewrite Hd. cbn. rewrite Hs. cbn.
  by destruct (truthy (customId req) && truthy id).
Qed.

Lemma handleNewTask_rejected req w e h :
  truthy (description req) = true →
  startNewTask (str (description req)) (or_empty (images req)) (host w)
  = (Rejected e, h) →
  run (handleNewTask req) w
  = (Val (error_response 500 (error_text e)),
     {| taskIdMap := taskIdMap w;
        host := h;
        calls := calls w ++ [cline_startNewTask (str (description req))
                                                (or_empty (images req))];
        logs := logs w ++ ["API error creating task: " +:+ String_ e] |}).
Proof. intros Hd Hs. unfold_handler. rewrite Hd. cbn. by rewrite Hs. Qed.

Lemma handleContinueTask_no_message req w :
  truthy (message req) = false →
  run (handleContinueTask req) w
  = (Val (error_response 400 "Message is required"), w).
Proof. intros Hm. unfold_handler. by rewrite Hm. Qed.

Lemma handleContinueTask_no_target req w :
  truthy (message req) = true →
  truthy (actualTaskId req (taskIdMap w)) = false →
  run (handleContinueTask req) w
  = (Val (error_response 400 "Valid taskId or customId is required"), w).
Proof.
  intros Hm. unfold actualTaskId. unfold_handler. rewrite Hm.
  destruct (truthy (customId req) && negb (truthy (taskId req)));
    cbn [negb andb]; [destruct (bool_decide _) |];
    intros Ht; by rewrite Ht.
Qed.

Lemma handleContinueTask_resolved req w result h :
  truthy (message req) = true →
  truthy (actualTaskId req (taskIdMap w)) = true →
  addMessageToTask (str (actualTaskId req (taskIdMap w))) (str (message req))
    (or_empty (images req)) (host w) = (Resolved result, h) →
  run (handleContinueTask req) w
  = (Val (continued result),
     {| taskIdMap := taskIdMap w;
        host := h;
        calls := calls w ++ [cline_addMessageToTask
                               (str (actualTaskId req (taskIdMap w)))
                               (str (message req)) (or_empty (images req))];
        logs := logs w |}).
Proof.
  intros Hm. unfold actualTaskId. unfold_handler. rewrite Hm.
  destruct (truthy (customId req) && negb (truthy (taskId req)));
    cbn [negb andb]; [destruct (bool_decide _) |];
    intros Ht Hs; rewrite Ht; cbn [negb]; by rewrite Hs.
Qed.

Lemma handleContinueTask_rejected req w e h :
  truthy (message req) = true →
  truthy (actualTaskId req (taskIdMap w)) = true →
  addMessageToTask (str (actualTaskId req (taskIdMap w))) (str (message req))
    (or_empty (images req)) (host w) = (Rejected e, h) →
  run (handleContinueTask req) w
  = (Val (error_response 500 (error_text e)),
     {| taskIdMap := taskIdMap w;
        host := h;
        calls := calls w ++ [cline_addMessageToTask
                               (str (actualTaskId req (taskIdMap w)))
                               (str (message req)) (or_empty (images req))];
        logs := logs w ++ ["API error continuing task: " +:+ String_ e] |}).
Proof.
  intros Hm. unfold actualTaskId. unfold_handler. rewrite Hm.
  destruct (truthy (customId req) && negb (truthy (taskId req)));
    cbn [negb andb]; [destruct (bool_decide _) |];
    intros Ht Hs; rewrite Ht; cbn [negb]; by rewrite Hs.
Qed.

(** ** Truthiness *)

Lemma truthy_true (v : Field) :
  truthy v = true ↔ ∃ s, v = Some s ∧ s ≠ "".
Proof.
  split.
  - destruct v as [[|c s]|]; [done | | done]. intros _. by exists (String c s).
  - intros (s & -> & Hs). by destruct s.
Qed.

Lemma truthy_Some (s : string) : s ≠ "" → truthy (Some s) = true.
Proof. intros Hs. apply truthy_true. by exists s. Qed.

Lemma truthy_false (v : Field) :
  truthy v = false ↔ v = None ∨ v = Some "".
Proof.
  split.
  - destruct v as [[|c s]|]; [by right | done | by left].
  - by intros [-> | ->].
Qed.

(** ** The variable [actualTaskId] *)

Lemma actualTaskId_explicit req m :
  truthy (taskId req) = true → actualTaskId req m = taskId req.
Proof.
  intros Ht. unfold actualTaskId. rewrite Ht. cbn [negb].
  by rewrite andb_false_r.
Qed.

Lemma actualTaskId_alias req m a t :
  truthy (taskId req) = false → customId req = Some a → a ≠ "" →
  m !! a = Some t → actualTaskId req m = Some t.
Proof.
  intros Ht Hc Ha Hm. unfold actualTaskId.
  rewrite Ht, Hc, (truthy_Some a Ha). cbn [negb andb str from_option id].
  rewrite Hm. by rewrite bool_decide_eq_true_2.
Qed.

Lemma actualTaskId_unbound req m :
  truthy (taskId req) = false →
  (∀ a, customId req = Some a → m !! a = None) →
  truthy (actualTaskId req m) = false.
Proof.
  intros Ht Hc. unfold actualTaskId.
  destruct (truthy (customId req)) eqn:Hq; cbn [andb]; [| done].
  apply truthy_true in Hq as (a & Ha & _).
  rewrite Ha. cbn [str from_option id]. rewrite (Hc a Ha).
  rewrite bool_decide_eq_false_2 by (by intros [? ?]).
  by rewrite andb_false_r.
Qed.

(** ** The map across one request *)

Lemma handleContinueTask_frame req w :
  taskIdMap (run (handleContinueTask req) w).2 = taskIdMap w.
Proof.
  destruct (truthy (message req)) eqn:Hm;
    [| by rewrite handleContinueTask_no_message].
  destruct (truthy (actualTaskId req (taskIdMap w))) eqn:Ht;
    [| by rewrite handleContinueTask_no_target].
  destruct (addMessageToTask (str (actualTaskId req (taskIdMap w)))
              (str (message req)) (or_empty (images req)) (host w))
    as [[result | e] h] eqn:Hs.
  - by rewrite (handleContinueTask_resolved _ _ _ _ Hm Ht Hs).
  - by rewrite (handleContinueTask_rejected _ _ _ _ Hm Ht Hs).
Qed.

(** A request to create a task leaves the map as it is or binds the alias of
    the request, which is then not empty, to an identifier that is not empty. *)
Lemma handleNewTask_taskIdMap req w :
  taskIdMap (run (handleNewTask req) w).2 = taskIdMap w
  ∨ ∃ a t, customId req = Some a ∧ a ≠ "" ∧ t ≠ ""
           ∧ taskIdMap (run (handleNewTask req) w).2 = <[a := t]> (taskIdMap w).
Proof.
  destruct (truthy (description req)) eqn:Hd;
    [| left; by rewrite handleNewTask_invalid].
  destruct (startNewTask (str (description req)) (or_empty (images req)) (host w))
    as [[id | e] h] eqn:Hs.
  - rewrite (handleNewTask_resolved _ _ _ _ Hd Hs). cbn [snd taskIdMap].
    destruct (truthy (customId req)) eqn:Hc; [| by left].
    destruct (truthy id) eqn:Hi; [| by left].
    apply truthy_true in Hc as (a & Ha & ?).
    apply truthy_true in Hi as (t & Hi & ?).
    right. exists a, t. by rewrite Ha, Hi.
  - left. by rewrite (handleNewTask_rejected _ _ _ _ Hd Hs).
Qed.

(** The map across any request, at one alias. *)
Lemma route_taskIdMap (r : Request) w a :
  taskIdMap (run (route r) w).2 !! a = taskIdMap w !! a
  ∨ ∃ req t, r = POST_tasks_new req ∧ customId req = Some a ∧ a ≠ "" ∧ t ≠ ""
             ∧ taskIdMap (run (route r) w).2 !! a = Some t.
Proof.
  destruct r as [| req | req]; cbn [route].
  - by left.
  - destruct (handleNewTask_taskIdMap req w) as [-> | (b & t & Hb & ? & ? & ->)];
      [by left |].
    destruct (decide (b = a)) as [-> | Hne].
    + right. exists req, t. by rewrite lookup_insert_eq.
    + left. by rewrite lookup_insert_ne.
  - left. by rewrite handleContinueTask_frame.
Qed.

Lemma serve_cons (r : Request) (rs : list Request) w :
  (serve (r :: rs) w).2 = (serve rs (run (route r) w).2).2.
Proof.
  cbn [serve]. destruct (run (route r) w) as [out w1]. cbn [snd].
  by destruct (serve rs w1).
Qed.

Lemma serve_app (rs1 rs2 : list Request) w :
  (serve (rs1 ++ rs2) w).2 = (serve rs2 (serve rs1 w).2).2.
Proof.
  revert w. induction rs1 as [| r rs1 IH]; intros w; [done |].
  by rewrite <- app_comm_cons, !serve_cons, IH.
Qed.

Lemma serve_taskIdMap_is_Some (rs : list Request) w a :
  is_Some (taskIdMap w !! a) → is_Some (taskIdMap (serve rs w).2 !! a).
Proof.
  revert w. induction rs as [| r rs IH]; intros w Hw; [done |].
  rewrite serve_cons. apply IH.
  destruct (route_taskIdMap r w a) as [-> | (? & t & _ & _ & _ & _ & ->)]; eauto.
Qed.

Lemma serve_taskIdMap_other (rs : list Request) w a :
  (∀ req, POST_tasks_new req ∈ rs → customId req ≠ Some a) →
  taskIdMap (serve rs w).2 !! a = taskIdMap w !! a.
Proof.
  revert w. induction rs as [| r rs IH]; intros w Hrs; [done |].
  rewrite serve_cons, IH.
  - destruct (route_taskIdMap r w a) as [-> | (req & ? & -> & Hc & _)]; [done |].
    exfalso. apply (Hrs req); [left | done].
  - intros req Hreq. apply Hrs. by right.
Qed.

(** ** Reachable worlds hold no empty alias and no empty identifier *)

Lemma reachable_taskIdMap w a t :
  reachable w → taskIdMap w !! a = Some t → a ≠ "" ∧ t ≠ "".
Proof.
  intros Hw. revert a t. induction Hw as [h | r w Hw IH]; intros a t.
  - cbn. by rewrite lookup_empty.
  - destruct (route_taskIdMap r w a) as [-> | (? & t' & _ & _ & ? & ? & ->)].
    + apply IH.
    + by intros [= <-].
Qed.

(** The command a request to continue issues once its target is settled,
    whatever the editor answers. *)
Lemma handleContinueTask_calls req w :
  truthy (message req) = true →
  truthy (actualTaskId req (taskIdMap w)) = true →
  calls (run (handleContinueTask req) w).2
  = calls w ++ [cline_addMessageToTask (str (actualTaskId req (taskIdMap w)))
                  (str (message req)) (or_empty (images req))].
Proof.
  intros Hm Ht.
  destruct (addMessageToTask (str (actualTaskId req (taskIdMap w)))
              (str (message req)) (or_empty (images req)) (host w))
    as [[result | e] h] eqn:Hs.
  - by rewrite (handleContinueTask_resolved _ _ _ _ Hm Ht Hs).
  - by rewrite (handleContinueTask_rejected _ _ _ _ Hm Ht Hs).
Qed.

(** A request to continue issues no command, or one command with a task
    identifier that is not empty. *)
Lemma handleContinueTask_calls_cases req w :
  calls (run (handleContinueTask req) w).2 = calls w
  ∨ ∃ t, t ≠ ""
         ∧ calls (run (handleContinueTask req) w).2
           = calls w ++ [cline_addMessageToTask t (str (message req))
                           (or_empty (images req))].
Proof.
  destruct (truthy (message req)) eqn:Hm;
    [| left; by rewrite handleContinueTask_no_message].
  destruct (truthy (actualTaskId req (taskIdMap w))) eqn:Ht;
    [| left; by rewrite handleContinueTask_no_target].
  right. pose proof Ht as (t & Hact & Hne)%truthy_true.
  exists t. split; [done |].
  rewrite (handleContinueTask_calls _ _ Hm Ht). by rewrite Hact.
Qed.

(** Both handlers return a response: nothing is thrown past their [catch]. *)
Lemma handleNewTask_returns req w : ∃ r, (run (handleNewTask req) w).1 = Val r.
Proof.
  destruct (truthy (description req)) eqn:Hd;
    [| rewrite handleNewTask_invalid; eauto].
  destruct (startNewTask (str (description req)) (or_empty (images req)) (host w))
    as [[id | e] h] eqn:Hs.
  - rewrite (handleNewTask_resolved _ _ _ _ Hd Hs). eauto.
  - rewrite (handleNewTask_rejected _ _ _ _ Hd Hs). eauto.
Qed.

Lemma handleContinueTask_returns req w :
  ∃ r, (run (handleContinueTask req) w).1 = Val r.
Proof.
  destruct (truthy (message req)) eqn:Hm;
    [| rewrite handleContinueTask_no_message; eauto].
  destruct (truthy (actualTaskId req (taskIdMap w))) eqn:Ht;
    [| rewrite handleContinueTask_no_target; eauto].
  destruct (addMessageToTask (str (actualTaskId req (taskIdMap w)))
              (str (message req)) (or_empty (images req)) (host w))
    as [[result | e] h] eqn:Hs.
  - rewrite (handleContinueTask_resolved _ _ _ _ Hm Ht Hs). eauto.
  - rewrite (handleContinueTask_rejected _ _ _ _ Hm Ht Hs). eauto.
Qed.

(** ** The claims of the specification *)

(** C5. A request to create a task whose description is absent or empty is
    answered 400 with [{error: "Task description is required"}], and the world
    is left as it was: no command reaches the editor and the map is
    unchanged. *)
Theorem create_without_description req w :
  description req = None ∨ description req = Some "" →
  run (handleNewTask req) w
  = (Val (error_response 400 "Task description is required"), w).
Proof. intros Hd. apply handleNewTask_invalid. by apply truthy_false. Qed.

(** C6. A request to continue that has a message, no [taskId] and no alias
    bound in the map is answered 400 with
    [{error: "Valid taskId or customId is required"}] and the world is left as
    it was, so no command reaches the editor; this is the case of every such
    request to a fresh server. *)
Theorem continue_without_target req w :
  truthy (message req) = true →
  taskId req = None →
  ((∀ a, customId req = Some a → taskIdMap w !! a = None) →
   run (handleContinueTask req) w
   = (Val (error_response 400 "Valid taskId or customId is required"), w))
  ∧ (∀ h, run (handleContinueTask req) (new_ApiServer h)
          = (Val (error_response 400 "Valid taskId or customId is required"),
             new_ApiServer h)).
Proof.
  intros Hm Ht.
  assert (∀ w', (∀ a, customId req = Some a → taskIdMap w' !! a = None) →
    run (handleContinueTask req) w'
    = (Val (error_response 400 "Valid taskId or customId is required"), w'))
    as Hgen.
  { intros w' Hc. apply handleContinueTask_no_target; [done |].
    apply actualTaskId_unbound; [by rewrite Ht | done]. }
  split; [apply Hgen |].
  intros h. apply Hgen. intros a _. apply lookup_empty.
Qed.

(** C7. When the editor rejects the command of a request that passed
    validation, with the value [e], the handler catches it and answers 500
    with the single field [error], which holds the message of [e] when [e] is
    an [Error] and [String(e)] otherwise.  Both handlers return a response on
    every request and in every world: nothing is thrown past them. *)
Theorem host_failure_is_reported req w e h :
  (truthy (description req) = true →
   startNewTask (str (description req)) (or_empty (images req)) (host w)
   = (Rejected e, h) →
   (run (handleNewTask req) w).1
   = Val {| status := 500; body := JObject [("error", JString (error_text e))] |})
  ∧ (truthy (message req) = true →
     truthy (actualTaskId req (taskIdMap w)) = true →
     addMessageToTask (str (actualTaskId req (taskIdMap w))) (str (message req))
       (or_empty (images req)) (host w) = (Rejected e, h) →
     (run (handleContinueTask req) w).1
     = Val {| status := 500; body := JObject [("error", JString (error_text e))] |})
  ∧ (∀ name text, error_text (ThrownError name text) = text)
  ∧ ((∀ name text, e ≠ ThrownError name text) → error_text e = String_ e)
  ∧ (∃ r, (run (handleNewTask req) w).1 = Val r)
  ∧ (∃ r, (run (handleContinueTask req) w).1 = Val r).
Proof.
  repeat split.
  - intros Hd Hs. by rewrite (handleNewTask_rejected _ _ _ _ Hd Hs).
  - intros Hm Ht Hs. by rewrite (handleContinueTask_rejected _ _ _ _ Hm Ht Hs).
  - intros He. destruct e as [name text | | | | |]; [by destruct (He name text) | done..].
  - apply handleNewTask_returns.
  - apply handleContinueTask_returns.
Qed.

(** C10. A request to continue leaves the map exactly as it was, whatever
    the request holds and whatever the editor answers. *)
Theorem continue_leaves_map_unchanged req w :
  taskIdMap (run (handleContinueTask req) w).2 = taskIdMap w.
Proof. apply handleContinueTask_frame. Qed.

(** C1, amended. A request to create a task with a description, an alias
    [a] that is not empty and an answer [t] of the editor that is not empty is
    answered 200 with that identifier and binds [a] to [t]; the next request to
    continue that has a message, no [taskId] and the alias [a] then settles on
    [t] and issues [cline.addMessageToTask] with [taskId: t]. *)
Theorem create_then_continue_by_alias req req' w a t h :
  truthy (description req) = true →
  customId req = Some a → a ≠ "" →
  startNewTask (str (description req)) (or_empty (images req)) (host w)
  = (Resolved (Some t), h) →
  t ≠ "" →
  truthy (message req') = true →
  taskId req' = None →
  customId req' = Some a →
  let w1 := (run (handleNewTask req) w).2 in
  (run (handleNewTask req) w).1 = Val (created (Some t) (Some a))
  ∧ actualTaskId req' (taskIdMap w1) = Some t
  ∧ calls (run (handleContinueTask req') w1).2
    = calls w1 ++ [cline_addMessageToTask t (str (message req'))
                     (or_empty (images req'))].
Proof.
  intros Hd Hc Ha Hs Ht Hm Hno Hc' w1.
  assert (taskIdMap w1 !! a = Some t) as Hbound.
  { subst w1. rewrite (handleNewTask_resolved _ _ _ _ Hd Hs). cbn [snd taskIdMap].
    rewrite Hc, (truthy_Some a Ha), (truthy_Some t Ht). cbn [andb str from_option id].
    apply lookup_insert_eq. }
  assert (actualTaskId req' (taskIdMap w1) = Some t) as Hact.
  { apply (actualTaskId_alias _ _ a); [by rewrite Hno | done..]. }
  split; [| split; [done |]].
  - rewrite (handleNewTask_resolved _ _ _ _ Hd Hs). by rewrite Hc.
  - rewrite handleContinueTask_calls; [by rewrite Hact | done |].
    rewrite Hact. by apply truthy_Some.
Qed.

(** C2, amended. For a request to continue that has a message, in a world
    the server can be in: a [taskId] that is not empty is the target as it is,
    whatever the alias and its binding; with the [taskId] absent or empty, an
    alias bound in the map gives the bound identifier as the target; with the
    [taskId] absent or empty and no alias bound, the answer is 400 and no
    command is issued. *)
Theorem continue_target_order req w :
  reachable w →
  truthy (message req) = true →
  (truthy (taskId req) = true →
   actualTaskId req (taskIdMap w) = taskId req
   ∧ calls (run (handleContinueTask req) w).2
     = calls w ++ [cline_addMessageToTask (str (taskId req)) (str (message req))
                     (or_empty (images req))])
  ∧ (truthy (taskId req) = false →
     ∀ a t, customId req = Some a → taskIdMap w !! a = Some t →
       actualTaskId req (taskIdMap w) = Some t
       ∧ calls (run (handleContinueTask req) w).2
         = calls w ++ [cline_addMessageToTask t (str (message req))
                         (or_empty (images req))])
  ∧ (truthy (taskId req) = false →
     (∀ a, customId req = Some a → taskIdMap w !! a = None) →
     run (handleContinueTask req) w
     = (Val (error_response 400 "Valid taskId or customId is required"), w)).
Proof.
  intros Hw Hm. split; [| split].
  - intros Ht. pose proof (actualTaskId_explicit req (taskIdMap w) Ht) as Hact.
    split; [done |].
    rewrite handleContinueTask_calls; by rewrite ?Hact.
  - intros Ht a t Hc Hb.
    destruct (reachable_taskIdMap w a t Hw Hb) as [Ha Hne].
    pose proof (actualTaskId_alias req (taskIdMap w) a t Ht Hc Ha Hb) as Hact.
    split; [done |].
    rewrite handleContinueTask_calls; rewrite ?Hact; [done.. |].
    by apply truthy_Some.
  - intros Ht Hc. apply handleContinueTask_no_target; [done |].
    by apply actualTaskId_unbound.
Qed.

(** C3, amended. A request to create a task changes the map in one case
    only: the description passes, the alias is present and not empty, and the
    editor answers an identifier that is neither [null] nor empty; the map
    then gains the binding of the alias to that identifier.  When the editor
    answers [null] the request is answered 200 with [taskId: null] and the
    map is unchanged. *)
Theorem create_binds_truthy_alias_and_id req w :
  let w1 := (run (handleNewTask req) w).2 in
  (∀ a t h,
     truthy (description req) = true →
     customId req = Some a → a ≠ "" →
     startNewTask (str (description req)) (or_empty (images req)) (host w)
     = (Resolved (Some t), h) →
     t ≠ "" →
     taskIdMap w1 = <[a := t]> (taskIdMap w))
  ∧ (taskIdMap w1 ≠ taskIdMap w →
     ∃ a t h,
       truthy (description req) = true
       ∧ customId req = Some a ∧ a ≠ ""
       ∧ startNewTask (str (description req)) (or_empty (images req)) (host w)
         = (Resolved (Some t), h)
       ∧ t ≠ "")
  ∧ (∀ h,
     truthy (description req) = true →
     startNewTask (str (description req)) (or_empty (images req)) (host w)
     = (Resolved None, h) →
     (∃ rest, (run (handleNewTask req) w).1
              = Val {| status := 200;
                       body := JObject (("success", JBool true)
                                        :: ("taskId", JNull) :: rest) |})
     ∧ taskIdMap w1 = taskIdMap w).
Proof.
  intros w1. subst w1. split; [| split].
  - intros a t h Hd Hc Ha Hs Ht.
    rewrite (handleNewTask_resolved _ _ _ _ Hd Hs). cbn [snd taskIdMap].
    by rewrite Hc, (truthy_Some a Ha), (truthy_Some t Ht).
  - intros Hchange.
    destruct (truthy (description req)) eqn:Hd;
      [| by rewrite handleNewTask_invalid in Hchange].
    destruct (startNewTask (str (description req)) (or_empty (images req)) (host w))
      as [[id | e] h] eqn:Hs;
      [| by rewrite (handleNewTask_rejected _ _ _ _ Hd Hs) in Hchange].
    rewrite (handleNewTask_resolved _ _ _ _ Hd Hs) in Hchange.
    cbn [snd taskIdMap] in Hchange.
    destruct (truthy (customId req)) eqn:Hc; [| done].
    destruct (truthy id) eqn:Hi; [| done].
    apply truthy_true in Hc as (a & Hc & Ha).
    apply truthy_true in Hi as (t & -> & Ht).
    by exists a, t, h.
  - intros h Hd Hs.
    rewrite (handleNewTask_resolved _ _ _ _ Hd Hs). cbn [fst snd taskIdMap].
    rewrite andb_false_r. split; [| done].
    unfold created, obj. cbn. eauto.
Qed.

(** C4. Two requests to create a task with the same alias, each of which
    records a binding (the alias and both identifiers are not empty), with any
    requests served between them: after the second, and after any further
    requests none of which creates a task under that alias, the map holds for
    the alias the identifier of the second request and nothing else, and a
    request to continue by that alias issues its command with it. *)
Theorem second_binding_wins req1 req2 (between after : list Request) w a t1 t2 h1 h2 :
  a ≠ "" → t1 ≠ "" → t2 ≠ "" →
  customId req1 = Some a → customId req2 = Some a →
  truthy (description req1) = true → truthy (description req2) = true →
  let w1 := (run (handleNewTask req1) w).2 in
  let w2 := (serve between w1).2 in
  let w3 := (run (handleNewTask req2) w2).2 in
  let w4 := (serve after w3).2 in
  startNewTask (str (description req1)) (or_empty (images req1)) (host w)
  = (Resolved (Some t1), h1) →
  startNewTask (str (description req2)) (or_empty (images req2)) (host w2)
  = (Resolved (Some t2), h2) →
  (∀ req, POST_tasks_new req ∈ after → customId req ≠ Some a) →
  (run (handleNewTask req1) w).1 = Val (created (Some t1) (Some a))
  ∧ (run (handleNewTask req2) w2).1 = Val (created (Some t2) (Some a))
  ∧ taskIdMap w1 !! a = Some t1
  ∧ taskIdMap w3 !! a = Some t2
  ∧ taskIdMap w4 !! a = Some t2
  ∧ (∀ t, taskIdMap w4 !! a = Some t → t = t2)
  ∧ (∀ req, truthy (message req) = true → taskId req = None →
       customId req = Some a →
       calls (run (handleContinueTask req) w4).2
       = calls w4 ++ [cline_addMessageToTask t2 (str (message req))
                        (or_empty (images req))]).
Proof.
  intros Ha Ht1 Ht2 Hc1 Hc2 Hd1 Hd2 w1 w2 w3 w4 Hs1 Hs2 Hafter.
  assert (taskIdMap w1 !! a = Some t1) as Hw1.
  { subst w1. rewrite (handleNewTask_resolved _ _ _ _ Hd1 Hs1). cbn [snd taskIdMap].
    rewrite Hc1, (truthy_Some a Ha), (truthy_Some t1 Ht1).
    apply lookup_insert_eq. }
  assert (taskIdMap w3 !! a = Some t2) as Hw3.
  { subst w3. rewrite (handleNewTask_resolved _ _ _ _ Hd2 Hs2). cbn [snd taskIdMap].
    rewrite Hc2, (truthy_Some a Ha), (truthy_Some t2 Ht2).
    apply lookup_insert_eq. }
  assert (taskIdMap w4 !! a = Some t2) as Hw4.
  { subst w4. by rewrite serve_taskIdMap_other. }
  split; [by rewrite (handleNewTask_resolved _ _ _ _ Hd1 Hs1), Hc1 |].
  split; [by rewrite (handleNewTask_resolved _ _ _ _ Hd2 Hs2), Hc2 |].
  repeat split; [done.. | congruence |].
  intros req Hm Hno Hc.
  pose proof (actualTaskId_alias req (taskIdMap w4) a t2) as Hact.
  rewrite Hno in Hact. specialize (Hact eq_refl Hc Ha Hw4).
  rewrite handleContinueTask_calls; rewrite ?Hact; [done.. |].
  by apply truthy_Some.
Qed.

(** What the response to a request to create a task reports is what the
    request did to the map. *)
Lemma handleNewTask_binding_reported req w a :
  ∃ resp, (run (handleNewTask req) w).1 = Val resp
    ∧ taskIdMap (run (handleNewTask req) w).2 !! a
      = match binding_reported resp with
        | Some (a', t) => if decide (a' = a) then Some t else taskIdMap w !! a
        | None => taskIdMap w !! a
        end.
Proof.
  destruct (truthy (description req)) eqn:Hd;
    [| rewrite handleNewTask_invalid by done; by eexists].
  destruct (startNewTask (str (description req)) (or_empty (images req)) (host w))
    as [[id | e] h] eqn:Hs;
    [| rewrite (handleNewTask_rejected _ _ _ _ Hd Hs); by eexists].
  rewrite (handleNewTask_resolved _ _ _ _ Hd Hs). eexists. split; [done |].
  cbn [snd taskIdMap]. unfold binding_reported, created, obj.
  destruct (customId req) as [[| c a'] |] eqn:Hc; destruct id as [[| c' t] |];
    cbn; try done.
  rewrite decide_True by done.
  destruct (decide (String c a' = a)) as [<- | Hne].
  - apply lookup_insert_eq.
  - by apply lookup_insert_ne.
Qed.

Lemma most_recently_bound_cons (a : string) (r : Request)
    (rs : list Request) w (current : option string) :
  most_recently_bound a (r :: rs) w current
  = most_recently_bound a rs (run (route r) w).2
      match r, (run (route r) w).1 with
      | POST_tasks_new _, Val resp =>
          match binding_reported resp with
          | Some (a', t) => if decide (a' = a) then Some t else current
          | None => current
          end
      | _, _ => current
      end.
Proof. cbn [most_recently_bound]. destruct r; by destruct (run _ w). Qed.

(** After any requests an alias holds the identifier it was most recently
    bound to. *)
Lemma serve_most_recently_bound (rs : list Request) w a :
  taskIdMap (serve rs w).2 !! a = most_recently_bound a rs w (taskIdMap w !! a).
Proof.
  revert w. induction rs as [| r rs IH]; intros w; [done |].
  rewrite serve_cons, most_recently_bound_cons, IH. f_equal.
  destruct r as [| req | req]; cbn [route].
  - done.
  - by destruct (handleNewTask_binding_reported req w a) as (resp & -> & ->).
  - by rewrite handleContinueTask_frame.
Qed.

Lemma most_recently_bound_is_Some (a : string) (rs : list Request) w
    (current : option string) :
  is_Some current → is_Some (most_recently_bound a rs w current).
Proof.
  revert w current. induction rs as [| r rs IH]; intros w current Hc; [done |].
  rewrite most_recently_bound_cons. apply IH.
  destruct r as [| req | req]; [done | | done].
  destruct (run _ _).1 as [resp |]; [| done].
  destruct (binding_reported resp) as [[a' t] |]; [| done].
  by destruct (decide (a' = a)).
Qed.

(** C8. Whatever requests are served, an alias bound in the map stays
    bound, and the identifier it holds is the one it was most recently bound
    to: the one it held before, until a request to create a task under the
    alias is answered 200 with an identifier that is not empty, and from then
    on the identifier of the last such answer.  A request under the alias that
    is answered otherwise (400, 500, [taskId: null], an empty [taskId])
    changes nothing. *)
Theorem bindings_are_never_removed (rs : list Request) w a t :
  taskIdMap w !! a = Some t →
  is_Some (taskIdMap (serve rs w).2 !! a)
  ∧ ((∀ req, POST_tasks_new req ∈ rs → customId req ≠ Some a) →
     taskIdMap (serve rs w).2 !! a = Some t)
  ∧ (∀ rs1 req rs2 t' h,
       rs = rs1 ++ POST_tasks_new req :: rs2 →
       truthy (description req) = true →
       customId req = Some a → a ≠ "" →
       startNewTask (str (description req)) (or_empty (images req))
         (host (serve rs1 w).2) = (Resolved (Some t'), h) →
       t' ≠ "" →
       (∀ req', POST_tasks_new req' ∈ rs2 → customId req' ≠ Some a) →
       taskIdMap (serve rs w).2 !! a = Some t')
  ∧ taskIdMap (serve rs w).2 !! a = most_recently_bound a rs w (Some t)
  ∧ is_Some (most_recently_bound a rs w (Some t)).
Proof.
  intros Hb. split; [| split; [| split; [| split]]].
  - apply serve_taskIdMap_is_Some. by rewrite Hb.
  - intros Hrs. by rewrite serve_taskIdMap_other.
  - intros rs1 req rs2 t' h -> Hd Hc Ha Hs Ht Hrs2.
    rewrite serve_app, serve_cons, serve_taskIdMap_other by done.
    cbn [route]. rewrite (handleNewTask_resolved _ _ _ _ Hd Hs). cbn [snd taskIdMap].
    rewrite Hc, (truthy_Some a Ha), (truthy_Some t' Ht).
    apply lookup_insert_eq.
  - by rewrite serve_most_recently_bound, Hb.
  - by apply most_recently_bound_is_Some.
Qed.

(** C9. A request to continue whose [taskId] is the empty string is served
    exactly as the same request without [taskId]: in a world the server can be
    in, an alias bound in the map gives the target, without one the answer is
    400 and no command is issued; and no request to continue issues a command
    whose [taskId] is the empty string. *)
Theorem empty_taskId_counts_as_absent req w :
  taskId req = Some "" →
  reachable w →
  run (handleContinueTask req) w = run (handleContinueTask (without_taskId req)) w
  ∧ (truthy (message req) = true →
     ∀ a t, customId req = Some a → taskIdMap w !! a = Some t →
       calls (run (handleContinueTask req) w).2
       = calls w ++ [cline_addMessageToTask t (str (message req))
                       (or_empty (images req))])
  ∧ (truthy (message req) = true →
     (∀ a, customId req = Some a → taskIdMap w !! a = None) →
     run (handleContinueTask req) w
     = (Val (error_response 400 "Valid taskId or customId is required"), w))
  ∧ (∀ m i, cline_addMessageToTask "" m i ∈ calls (run (handleContinueTask req) w).2 →
       cline_addMessageToTask "" m i ∈ calls w).
Proof.
  intros Hempty Hw. split; [| split; [| split]].
  - unfold_handler. cbn [without_taskId taskId customId message images].
    rewrite Hempty. cbn [truthy negb].
    destruct (truthy (message req)); cbn [negb]; [| done].
    rewrite andb_true_r.
    destruct (truthy (customId req)); [| done].
    by destruct (bool_decide _).
  - intros Hm a t Hc Hb.
    destruct (reachable_taskIdMap w a t Hw Hb) as [Ha Hne].
    pose proof (actualTaskId_alias req (taskIdMap w) a t) as Hact.
    rewrite Hempty in Hact. specialize (Hact eq_refl Hc Ha Hb).
    rewrite handleContinueTask_calls; rewrite ?Hact; [done.. |].
    by apply truthy_Some.
  - intros Hm Hc. apply handleContinueTask_no_target; [done |].
    apply actualTaskId_unbound; [by rewrite Hempty | done].
  - intros m i.
    destruct (handleContinueTask_calls_cases req w) as [-> | (t & Ht & ->)];
      [done |].
    rewrite elem_of_app, list_elem_of_singleton. intros [? | [= <- _ _]]; done.
Qed.

End Properties.

(** * The claims on a scripted editor

    Each theorem above that has hypotheses is applied here to requests of the
    kind the specification gives as scenarios, and the claims that were amended
    are shown to fail as first stated. *)

Lemma bound_c1_reachable : reachable bound_c1.
Proof.
  exact (reachable_route (POST_tasks_new (new_task "fix bug" (Some "c1")))
           editor_T1 (reachable_new _)).
Defined.

(** C1 holds, as amended, on the scenario of the specification: [c1] is bound
    to [T1] and the message goes to [T1]. *)
Lemma create_then_continue_by_alias_witness :
  (run (handleNewTask (new_task "fix bug" (Some "c1"))) editor_T1).1
  = Val (created (Some "T1") (Some "c1"))
  ∧ actualTaskId (continue_task None (Some "c1") "also fix typo")
      (taskIdMap bound_c1) = Some "T1"
  ∧ calls (run (handleContinueTask (continue_task None (Some "c1") "also fix typo"))
             bound_c1).2
    = calls bound_c1 ++ [cline_addMessageToTask "T1" "also fix typo" []].
Proof.
  by eapply (create_then_continue_by_alias
               (new_task "fix bug" (Some "c1"))
               (continue_task None (Some "c1") "also fix typo")
               editor_T1 "c1" "T1").
Defined.

(** C1 fails as first stated.  With the alias [""] the task is created with
    the identifier [T1], yet the alias is not bound and the request to continue
    by it is answered 400 without any command; the same happens under the alias
    [c1] when the editor answers the identifier [""], which is not [null]; and
    with [c1] bound to [T1], a request to continue by [c1] whose message is
    empty is answered 400 without any command. *)
Lemma empty_alias_or_id_is_not_resolved :
  (run (handleNewTask (new_task "fix bug" (Some ""))) editor_T1).1
  = Val {| status := 200;
           body := JObject [("success", JBool true); ("taskId", JString "T1")] |}
  ∧ run (handleContinueTask (continue_task None (Some "") "hi"))
        (run (handleNewTask (new_task "fix bug" (Some ""))) editor_T1).2
    = (Val (error_response 400 "Valid taskId or customId is required"),
       (run (handleNewTask (new_task "fix bug" (Some ""))) editor_T1).2)
  ∧ (run (handleNewTask (new_task "fix bug" (Some "c1"))) editor_empty_id).1
    = Val {| status := 200;
             body := JObject [("success", JBool true); ("taskId", JString "");
                              ("customId", JString "c1")] |}
  ∧ run (handleContinueTask (continue_task None (Some "c1") "hi"))
        (run (handleNewTask (new_task "fix bug" (Some "c1"))) editor_empty_id).2
    = (Val (error_response 400 "Valid taskId or customId is required"),
       (run (handleNewTask (new_task "fix bug" (Some "c1"))) editor_empty_id).2)
  ∧ run (handleContinueTask (continue_task None (Some "c1") "")) bound_c1
    = (Val (error_response 400 "Message is required"), bound_c1).
Proof. repeat split. Qed.

(** C2 holds, as amended, in the world where [c1] is bound to [T1]: a
    [taskId] that is not empty wins over the alias. *)
Lemma continue_target_order_witness :
  actualTaskId (continue_task (Some "T7") (Some "c1") "hi") (taskIdMap bound_c1)
  = Some "T7"
  ∧ calls (run (handleContinueTask (continue_task (Some "T7") (Some "c1") "hi"))
             bound_c1).2
    = calls bound_c1 ++ [cline_addMessageToTask "T7" "hi" []].
Proof.
  refine (proj1 (continue_target_order
                   (continue_task (Some "T7") (Some "c1") "hi") bound_c1
                   bound_c1_reachable eq_refl) eq_refl).
Defined.

(** C2 fails as first stated.  In the world where [c1] is bound to [T1], the
    request [{taskId: "", customId: "c1", message: "hi"}] supplies a [taskId],
    yet the alias is not ignored: the command goes to [T1].  And
    [{taskId: "", message: "hi"}] is answered 400 although a [taskId] was
    supplied. *)
Lemma empty_taskId_is_not_used_as_is :
  calls (run (handleContinueTask (continue_task (Some "") (Some "c1") "hi"))
           bound_c1).2
  = [cline_startNewTask "fix bug" []; cline_addMessageToTask "T1" "hi" []]
  ∧ run (handleContinueTask (continue_task (Some "") None "hi")) bound_c1
    = (Val (error_response 400 "Valid taskId or customId is required"), bound_c1).
Proof. split; reflexivity. Qed.

(** C3 holds, as amended, on the scenario of the specification. *)
Lemma create_binds_truthy_alias_and_id_witness :
  taskIdMap (run (handleNewTask (new_task "fix bug" (Some "c1"))) editor_T1).2
  = <["c1" := "T1"]> (taskIdMap editor_T1)
  ∧ ((∃ rest, (run (handleNewTask (new_task "fix bug" (Some "c1"))) editor_idle).1
              = Val {| status := 200;
                       body := JObject (("success", JBool true)
                                        :: ("taskId", JNull) :: rest) |})
     ∧ taskIdMap (run (handleNewTask (new_task "fix bug" (Some "c1"))) editor_idle).2
       = taskIdMap editor_idle).
Proof.
  split.
  - by eapply (proj1 (create_binds_truthy_alias_and_id
                        (new_task "fix bug" (Some "c1")) editor_T1) "c1" "T1").
  - by eapply (proj2 (proj2 (create_binds_truthy_alias_and_id
                               (new_task "fix bug" (Some "c1")) editor_idle))).
Defined.

(** C3 fails as first stated.  An alias was supplied and the editor answered
    an identifier that is not [null], yet no binding is recorded: once with
    the alias [""], once with the identifier [""]. *)
Lemma empty_alias_or_id_is_not_bound :
  customId (new_task "fix bug" (Some "")) = Some ""
  ∧ startNewTask "fix bug" [] (host editor_T1)
    = (Resolved (Some "T1"), {| tasks := []; results := [] |})
  ∧ taskIdMap (run (handleNewTask (new_task "fix bug" (Some ""))) editor_T1).2 = ∅
  ∧ startNewTask "fix bug" [] (host editor_empty_id)
    = (Resolved (Some ""), {| tasks := []; results := [] |})
  ∧ taskIdMap (run (handleNewTask (new_task "fix bug" (Some "c1"))) editor_empty_id).2
    = ∅.
Proof. repeat split. Qed.

(** C4 on two tasks created under [c1], with a message sent between them and
    a task created under [c2] after them: [c1] resolves to [T2]. *)
Lemma second_binding_wins_witness :
  taskIdMap
    (serve [POST_tasks_new (new_task "fix bug" (Some "c1"));
            POST_tasks_continue (continue_task None (Some "c1") "hi");
            POST_tasks_new (new_task "fix it again" (Some "c1"));
            GET_health;
            POST_tasks_new (new_task "other" (Some "c2"))] editor_T1_T2).2
  !! "c1" = Some "T2".
Proof.
  refine (proj1 (proj2 (proj2 (proj2 (proj2 (second_binding_wins
    (new_task "fix bug" (Some "c1")) (new_task "fix it again" (Some "c1"))
    [POST_tasks_continue (continue_task None (Some "c1") "hi")]
    [GET_health; POST_tasks_new (new_task "other" (Some "c2"))]
    editor_T1_T2 "c1" "T1" "T2" _ _
    _ _ _ eq_refl eq_refl eq_refl eq_refl eq_refl eq_refl _)))))); try done.
  intros req Hin Hc.
  apply elem_of_cons in Hin as [[=] | Hin].
  apply elem_of_cons in Hin as [[= ->] | Hin]; [done |].
  by apply elem_of_nil in Hin.
Defined.

(** C5 on a request without description and one with an empty description. *)
Lemma create_without_description_witness :
  run (handleNewTask no_body) editor_T1
  = (Val (error_response 400 "Task description is required"), editor_T1)
  ∧ run (handleNewTask (new_task "" (Some "c1"))) editor_T1
    = (Val (error_response 400 "Task description is required"), editor_T1).
Proof.
  split.
  - apply (create_without_description no_body editor_T1). by left.
  - apply (create_without_description (new_task "" (Some "c1")) editor_T1).
    by right.
Defined.

(** C6 on the scenario of the specification, [{message: "hi"}] to a fresh
    server, and on an alias that is not bound. *)
Lemma continue_without_target_witness :
  run (handleContinueTask (continue_task None None "hi")) editor_T1
  = (Val (error_response 400 "Valid taskId or customId is required"), editor_T1)
  ∧ run (handleContinueTask (continue_task None (Some "c2") "hi")) bound_c1
    = (Val (error_response 400 "Valid taskId or customId is required"), bound_c1).
Proof.
  split.
  - apply (proj2 (continue_without_target (continue_task None None "hi")
                    editor_T1 eq_refl eq_refl)).
  - apply (proj1 (continue_without_target (continue_task None (Some "c2") "hi")
                    bound_c1 eq_refl eq_refl)).
    by intros a [= <-].
Defined.

(** C7 on an editor that rejects both commands with an [Error]. *)
Lemma host_failure_is_reported_witness :
  (run (handleNewTask failing_request) editor_failing).1
  = Val {| status := 500;
           body := JObject [("error", JString "No active Cline instance")] |}
  ∧ (run (handleContinueTask failing_request) editor_failing).1
    = Val {| status := 500;
             body := JObject [("error", JString "No active Cline instance")] |}.
Proof.
  split.
  - by eapply (proj1 (host_failure_is_reported failing_request editor_failing
                        (ThrownError "Error" "No active Cline instance") _)).
  - by eapply (proj1 (proj2 (host_failure_is_reported failing_request
                        editor_failing
                        (ThrownError "Error" "No active Cline instance") _))).
Defined.

(** C8 in the world where [c1] is bound to [T1]: a task created under [c1]
    is answered [T2], the next one under [c1] is answered [null], another is
    refused for want of a description, and [c1] ends bound to [T2]. *)
Lemma bindings_are_never_removed_witness :
  taskIdMap
    (serve [POST_tasks_continue (continue_task None None "hi");
            POST_tasks_new (new_task "fix it again" (Some "c1"));
            POST_tasks_new (new_task "and again" (Some "c1"));
            POST_tasks_new (new_task "" (Some "c1"));
            POST_tasks_new (new_task "other" (Some "c2"));
            POST_tasks_continue (continue_task None (Some "c1") "hi")]
       bound_c1_before_T2).2
  !! "c1" = Some "T2".
Proof.
  exact (proj1 (proj2 (proj2 (proj2 (bindings_are_never_removed
    [POST_tasks_continue (continue_task None None "hi");
     POST_tasks_new (new_task "fix it again" (Some "c1"));
     POST_tasks_new (new_task "and again" (Some "c1"));
     POST_tasks_new (new_task "" (Some "c1"));
     POST_tasks_new (new_task "other" (Some "c2"));
     POST_tasks_continue (continue_task None (Some "c1") "hi")]
    bound_c1_before_T2 "c1" "T1" eq_refl))))).
Defined.

(** C9 in the world where [c1] is bound to [T1]: with [taskId: ""] the alias
    decides. *)
Lemma empty_taskId_counts_as_absent_witness :
  run (handleContinueTask (continue_task (Some "") (Some "c1") "hi")) bound_c1
  = run (handleContinueTask (continue_task None (Some "c1") "hi")) bound_c1
  ∧ calls (run (handleContinueTask (continue_task (Some "") (Some "c1") "hi"))
             bound_c1).2
    = calls bound_c1 ++ [cline_addMessageToTask "T1" "hi" []].
Proof.
  pose proof (empty_taskId_counts_as_absent
                (continue_task (Some "") (Some "c1") "hi") bound_c1 eq_refl
                bound_c1_reachable)
    as (Hsame & Hbound & _).
  split; [exact Hsame |].
  by apply (Hbound eq_refl "c1" "T1").
Defined.

(** * Further properties of the handlers *)

Section MoreProperties.
Context {H : Type} `{!Host H}.
Implicit Types (w : World H) (req : Body) (id : option string).

(** ** The cases of the two handlers *)

Lemma handleNewTask_cases req w :
  (truthy (description req) = false
   ∧ run (handleNewTask req) w
     = (Val (error_response 400 "Task description is required"), w))
  ∨ (∃ id h,
       truthy (description req) = true
       ∧ startNewTask (str (description req)) (or_empty (images req)) (host w)
         = (Resolved id, h)
       ∧ run (handleNewTask req) w
         = (Val (created id (customId req)),
            {| taskIdMap := if truthy (customId req) && truthy id
                            then <[str (customId req) := str id]> (taskIdMap w)
                            else taskIdMap w;
               host := h;
               calls := calls w ++ [cline_startNewTask (str (description req))
                                      (or_empty (images req))];
               logs := logs w |}))
  ∨ (∃ e h,
       truthy (description req) = true
       ∧ startNewTask (str (description req)) (or_empty (images req)) (host w)
         = (Rejected e, h)
       ∧ run (handleNewTask req) w
         = (Val (error_response 500 (error_text e)),
            {| taskIdMap := taskIdMap w;
               host := h;
               calls := calls w ++ [cline_startNewTask (str (description req))
                                      (or_empty (images req))];
               logs := logs w ++ ["API error creating task: " +:+ String_ e] |})).
Proof.
  destruct (truthy (description req)) eqn:Hd;
    [| left; split; [done | by apply handleNewTask_invalid]].
  destruct (startNewTask (str (description req)) (or_empty (images req)) (host w))
    as [[id | e] h] eqn:Hs.
  - right; left. exists id, h. repeat split.
    by apply handleNewTask_resolved.
  - right; right. exists e, h. repeat split.
    by apply handleNewTask_rejected.
Qed.

Lemma handleContinueTask_cases req w :
  (truthy (message req) = false
   ∧ run (handleContinueTask req) w
     = (Val (error_response 400 "Message is required"), w))
  ∨ (truthy (message req) = true
     ∧ truthy (actualTaskId req (taskIdMap w)) = false
     ∧ run (handleContinueTask req) w
       = (Val (error_response 400 "Valid taskId or customId is required"), w))
  ∨ (∃ result h,
       truthy (message req) = true
       ∧ truthy (actualTaskId req (taskIdMap w)) = true
       ∧ run (handleContinueTask req) w
         = (Val (continued result),
            {| taskIdMap := taskIdMap w;
               host := h;
               calls := calls w ++ [cline_addMessageToTask
                                      (str (actualTaskId req (taskIdMap w)))
                                      (str (message req)) (or_empty (images req))];
               logs := logs w |}))
  ∨ (∃ e h,
       truthy (message req) = true
       ∧ truthy (actualTaskId req (taskIdMap w)) = true
       ∧ run (handleContinueTask req) w
         = (Val (error_response 500 (error_text e)),
            {| taskIdMap := taskIdMap w;
               host := h;
               calls := calls w ++ [cline_addMessageToTask
                                      (str (actualTaskId req (taskIdMap w)))
                                      (str (message req)) (or_empty (images req))];
               logs := logs w ++ ["API error continuing task: " +:+ String_ e] |})).
Proof.
  destruct (truthy (message req)) eqn:Hm;
    [| left; split; [done | by apply handleContinueTask_no_message]].
  destruct (truthy (actualTaskId req (taskIdMap w))) eqn:Ht;
    [| right; left; repeat split; by apply handleContinueTask_no_target].
  destruct (addMessageToTask (str (actualTaskId req (taskIdMap w)))
              (str (message req)) (or_empty (images req)) (host w))
    as [[result | e] h] eqn:Hs.
  - right; right; left. exists result, h. repeat split.
    by apply handleContinueTask_resolved.
  - right; right; right. exists e, h. repeat split.
    by apply handleContinueTask_rejected.
Qed.

Lemma truthy_str (v : Field) : truthy v = true → str v ≠ "".
Proof. by intros (s & -> & ?)%truthy_true. Qed.

(** ** Properties *)

(** X1. A request to create a task whose description is not empty gives the
    editor exactly one command, [cline.startNewTask] with that description and
    with the images of the request, or the empty array when it has none,
    whether the editor then answers or rejects; when the editor answers [id]
    the request is answered 200 with [id]. *)
Theorem create_issues_one_command req w :
  truthy (description req) = true →
  calls (run (handleNewTask req) w).2
  = calls w ++ [cline_startNewTask (str (description req))
                  (match images req with Some l => l | None => [] end)]
  ∧ (∀ id h,
       startNewTask (str (description req)) (or_empty (images req)) (host w)
       = (Resolved id, h) →
       (run (handleNewTask req) w).1 = Val (created id (customId req))
       ∧ host (run (handleNewTask req) w).2 = h).
Proof.
  intros Hd.
  destruct (handleNewTask_cases req w)
    as [[Hf _] | [(id & h & _ & Hs & ->) | (e & h & _ & Hs & ->)]];
    [congruence | |].
  - split; [by destruct (images req) |].
    intros id' h' Hs'. rewrite Hs in Hs'. by injection Hs' as <- <-.
  - split; [by destruct (images req) |].
    intros id' h' Hs'. by rewrite Hs in Hs'.
Qed.

(** X2. A request to continue whose message is absent or empty is answered
    400 with [{error: "Message is required"}] before anything else is looked
    at: the world is left as it was even when the request names a task. *)
Theorem continue_without_message req w :
  message req = None ∨ message req = Some "" →
  run (handleContinueTask req) w
  = (Val (error_response 400 "Message is required"), w).
Proof. intros Hm. apply handleContinueTask_no_message. by apply truthy_false. Qed.

(** X3. Whatever the request, an answer 400 means that the world is exactly
    as it was: nothing was bound, nothing was logged and the editor was not
    called. *)
Theorem answer_400_leaves_world (r : Request) w resp :
  (run (route r) w).1 = Val resp →
  status resp = 400 →
  (run (route r) w).2 = w.
Proof.
  destruct r as [| req | req]; cbn [route].
  - by intros [= <-].
  - destruct (handleNewTask_cases req w)
      as [[_ ->] | [(id & h & _ & _ & ->) | (e & h & _ & _ & ->)]];
      [done | by intros [= <-].. ].
  - destruct (handleContinueTask_cases req w)
      as [[_ ->] | [(_ & _ & ->) | [(res & h & _ & _ & ->) | (e & h & _ & _ & ->)]]];
      [done | done | by intros [= <-].. ].
Qed.

(** In the model a command of the editor always settles, and then a request
    has a response of one of three kinds. *)
Lemma route_answer (r : Request) w :
  ∃ resp, (run (route r) w).1 = Val resp
    ∧ ((status resp = 500
        ∧ (∃ line, logs (run (route r) w).2 = logs w ++ [line])
        ∧ taskIdMap (run (route r) w).2 = taskIdMap w)
       ∨ ((status resp = 200 ∨ status resp = 400)
          ∧ logs (run (route r) w).2 = logs w)).
Proof.
  destruct r as [| req | req]; cbn [route].
  - eexists. split; [done |]. right. split; [by left | done].
  - destruct (handleNewTask_cases req w)
      as [[_ ->] | [(id & h & _ & _ & ->) | (e & h & _ & _ & ->)]];
      (eexists; split; [done |]).
    + right. split; [by right | done].
    + right. split; [by left | done].
    + left. split; [done |]. split; [by eexists | done].
  - destruct (handleContinueTask_cases req w)
      as [[_ ->] | [(_ & _ & ->) | [(res & h & _ & _ & ->) | (e & h & _ & _ & ->)]]];
      (eexists; split; [done |]).
    + right. split; [by right | done].
    + right. split; [by right | done].
    + right. split; [by left | done].
    + left. split; [done |]. split; [by eexists | done].
Qed.

(** X4. A request that is answered is answered 200, 400 or 500.  A line is
    logged exactly when the answer is 500, one line, and then the map is as it
    was. *)
Theorem answer_500_is_logged (r : Request) w resp :
  (run (route r) w).1 = Val resp →
  (status resp = 500
   ∧ (∃ line, logs (run (route r) w).2 = logs w ++ [line])
   ∧ taskIdMap (run (route r) w).2 = taskIdMap w)
  ∨ ((status resp = 200 ∨ status resp = 400)
     ∧ logs (run (route r) w).2 = logs w).
Proof.
  intros Hr. destruct (route_answer r w) as (resp' & Hr' & Hcases).
  rewrite Hr in Hr'. by injection Hr' as <-.
Qed.

(** X5. With an alias [a] bound to [t0], a request to create a task under
    [a] to which the editor answers [null] is answered 200 with
    [taskId: null] and echoes the alias, yet [a] keeps its binding: the next
    request to continue by [a] is sent to [t0]. *)
Theorem null_answer_keeps_old_binding req req' w a t0 h :
  a ≠ "" → t0 ≠ "" →
  taskIdMap w !! a = Some t0 →
  truthy (description req) = true →
  customId req = Some a →
  startNewTask (str (description req)) (or_empty (images req)) (host w)
  = (Resolved None, h) →
  truthy (message req') = true →
  taskId req' = None →
  customId req' = Some a →
  let w1 := (run (handleNewTask req) w).2 in
  (run (handleNewTask req) w).1
  = Val {| status := 200;
           body := JObject [("success", JBool true); ("taskId", JNull);
                            ("customId", JString a)] |}
  ∧ calls (run (handleContinueTask req') w1).2
    = calls w1 ++ [cline_addMessageToTask t0 (str (message req'))
                     (or_empty (images req'))].
Proof.
  intros Ha Ht0 Hb Hd Hc Hs Hm Hno Hc' w1. subst w1.
  rewrite (handleNewTask_resolved _ _ _ _ Hd Hs). cbn [fst snd].
  split.
  - rewrite Hc. unfold created. by rewrite (truthy_Some a Ha).
  - rewrite andb_false_r.
    pose proof (actualTaskId_alias req' (taskIdMap w) a t0) as Hact.
    rewrite Hno in Hact. specialize (Hact eq_refl Hc' Ha Hb).
    rewrite handleContinueTask_calls; cbn [taskIdMap calls]; rewrite ?Hact;
      [done.. |].
    by apply truthy_Some.
Qed.

(** X6. A request to continue that names a task by a [taskId] that is not
    empty never consults the map: with any other map in its place the answer,
    the command and the state of the editor are the same. *)
Theorem explicit_taskId_ignores_map req w (m : gmap string string) :
  truthy (taskId req) = true →
  (run (handleContinueTask req) (with_taskIdMap m w)).1
  = (run (handleContinueTask req) w).1
  ∧ calls (run (handleContinueTask req) (with_taskIdMap m w)).2
    = calls (run (handleContinueTask req) w).2
  ∧ host (run (handleContinueTask req) (with_taskIdMap m w)).2
    = host (run (handleContinueTask req) w).2.
Proof.
  intros Ht.
  destruct (truthy (message req)) eqn:Hm;
    [| by rewrite !handleContinueTask_no_message].
  pose proof (actualTaskId_explicit req (taskIdMap w) Ht) as Hw.
  pose proof (actualTaskId_explicit req m Ht) as Hm'.
  destruct (addMessageToTask (str (taskId req)) (str (message req))
              (or_empty (images req)) (host w)) as [[result | e] h] eqn:Hs.
  - rewrite (handleContinueTask_resolved req w result h),
      (handleContinueTask_resolved req (with_taskIdMap m w) result h);
      cbn [with_taskIdMap taskIdMap host calls]; rewrite ?Hw, ?Hm'; done.
  - rewrite (handleContinueTask_rejected req w e h),
      (handleContinueTask_rejected req (with_taskIdMap m w) e h);
      cbn [with_taskIdMap taskIdMap host calls]; rewrite ?Hw, ?Hm'; done.
Qed.

(** X7. A request to create a task never reads the map: with any other map
    in its place the answer, the command, the state of the editor and the log
    are the same.  In particular an alias already bound is no error. *)
Theorem create_ignores_map req w (m : gmap string string) :
  (run (handleNewTask req) (with_taskIdMap m w)).1 = (run (handleNewTask req) w).1
  ∧ calls (run (handleNewTask req) (with_taskIdMap m w)).2
    = calls (run (handleNewTask req) w).2
  ∧ host (run (handleNewTask req) (with_taskIdMap m w)).2
    = host (run (handleNewTask req) w).2
  ∧ logs (run (handleNewTask req) (with_taskIdMap m w)).2
    = logs (run (handleNewTask req) w).2.
Proof.
  destruct (handleNewTask_cases req w)
    as [[Hd ->] | [(id & h & Hd & Hs & ->) | (e & h & Hd & Hs & ->)]].
  - by rewrite handleNewTask_invalid.
  - by rewrite (handleNewTask_resolved req (with_taskIdMap m w) id h).
  - by rewrite (handleNewTask_rejected req (with_taskIdMap m w) e h).
Qed.

(** ** Across a list of requests *)

Lemma serve_calls_cons (r : Request) (rs : list Request) w :
  calls (serve (r :: rs) w).2 = calls (serve rs (run (route r) w).2).2.
Proof. by rewrite serve_cons. Qed.

(** One request gives the editor no command, or one command none of whose
    strings is empty. *)
Lemma route_calls (r : Request) w :
  calls (run (route r) w).2 = calls w
  ∨ ∃ c, command_nonempty c ∧ calls (run (route r) w).2 = calls w ++ [c].
Proof.
  destruct r as [| req | req]; cbn [route].
  - by left.
  - destruct (handleNewTask_cases req w)
      as [[_ ->] | [(id & h & Hd & _ & ->) | (e & h & Hd & _ & ->)]];
      [by left | right; eexists; split; [| done]; by apply truthy_str..].
  - destruct (handleContinueTask_cases req w)
      as [[_ ->] | [(_ & _ & ->)
           | [(res & h & Hm & Ht & ->) | (e & h & Hm & Ht & ->)]]];
      [by left | by left
       | right; eexists; (split; [| done]); split; by apply truthy_str..].
Qed.

Lemma route_size (r : Request) w :
  (size (taskIdMap (run (route r) w).2)
   ≤ size (taskIdMap w) + (if is_create r then 1 else 0))%nat.
Proof.
  destruct r as [| req | req]; cbn [route is_create].
  - unfold run, mret, M_ret. cbn [snd]. lia.
  - destruct (handleNewTask_taskIdMap req w) as [-> | (a & t & _ & _ & _ & ->)];
      [lia |].
    rewrite map_size_insert. destruct (_ !! a); unfold id; lia.
  - rewrite handleContinueTask_frame. lia.
Qed.

(** X8. After a list of requests of all kinds, the map has at most one
    binding more for each request of the list that creates a task, and it is
    the same map when no request of the list creates one. *)
Theorem map_grows_by_creates_only (rs : list Request) w :
  (size (taskIdMap (serve rs w).2)
   ≤ size (taskIdMap w) + length (filter is_create rs))%nat
  ∧ (Forall (λ r, is_create r = false) rs →
     taskIdMap (serve rs w).2 = taskIdMap w).
Proof.
  split.
  - revert w. induction rs as [| r rs IH]; intros w; [cbn; lia |].
    rewrite serve_cons, filter_cons. etrans; [apply IH |].
    pose proof (route_size r w) as Hr.
    destruct (is_create r); case_decide; try done; cbn [length]; lia.
  - revert w. induction rs as [| r rs IH]; intros w Hrs; [done |].
    apply Forall_cons in Hrs as [Hr Hrs].
    rewrite serve_cons, IH by done.
    destruct r as [| req | req]; [done | done | apply handleContinueTask_frame].
Qed.

(** X9. In a world the server can be in, the map binds no empty alias and
    holds no empty identifier. *)
Theorem map_holds_no_empty_string w a t :
  reachable w →
  taskIdMap w !! a = Some t →
  a ≠ "" ∧ t ≠ "".
Proof. apply reachable_taskIdMap. Qed.

(** X10. The editor is never given an empty string to work on: every
    command issued while a list of requests is served carries a task
    description that is not empty, or a task identifier and a message that
    are not empty. *)
Theorem commands_carry_no_empty_string (rs : list Request) w :
  ∃ cs, calls (serve rs w).2 = calls w ++ cs
        ∧ Forall command_nonempty cs
        ∧ (length cs ≤ length rs)%nat.
Proof.
  revert w. induction rs as [| r rs IH]; intros w.
  - exists []. by rewrite app_nil_r.
  - rewrite serve_cons.
    destruct (IH (run (route r) w).2) as (cs & -> & Hcs & Hlen).
    destruct (route_calls r w) as [-> | (c & Hc & ->)].
    + exists cs. repeat split; [done |]. cbn [length]. lia.
    + exists (c :: cs). rewrite <- app_assoc. repeat split.
      * by apply Forall_cons.
      * cbn [length]. lia.
Qed.

(** X11. Once an alias is bound, any number of requests to continue by it
    are all sent to the identifier it is bound to, in the order of the
    requests. *)
Theorem continues_by_alias_reach_same_task (reqs : list Body) w a t :
  a ≠ "" → t ≠ "" →
  taskIdMap w !! a = Some t →
  Forall (λ req, truthy (message req) = true ∧ taskId req = None
                 ∧ customId req = Some a) reqs →
  calls (serve (POST_tasks_continue <$> reqs) w).2
  = calls w ++ ((λ req, cline_addMessageToTask t (str (message req))
                          (or_empty (images req))) <$> reqs).
Proof.
  intros Ha Ht. revert w.
  induction reqs as [| req reqs IH]; intros w Hb Hreqs.
  - cbn. by rewrite app_nil_r.
  - apply Forall_cons in Hreqs as [(Hm & Hno & Hc) Hreqs].
    rewrite !fmap_cons, serve_cons. cbn [route].
    rewrite IH; [| by rewrite handleContinueTask_frame | done].
    pose proof (actualTaskId_alias req (taskIdMap w) a t) as Hact.
    rewrite Hno in Hact. specialize (Hact eq_refl Hc Ha Hb).
    rewrite handleContinueTask_calls; rewrite ?Hact;
      [by rewrite <- app_assoc | done | by apply truthy_Some].
Qed.

End MoreProperties.

(** * Properties of [start], [stop] and the singleton *)

Section LifecycleProperties.
Context {H : Type} `{!Host H} {L : Type} `{!Listener L}.
Implicit Types (this : Instance) (env : Env H L) (p : Process H L).

Lemma steps_cons (ev : Event) (evs : list Event) p :
  steps (ev :: evs) p = steps evs (step ev p).
Proof. done. Qed.

(** [stop] closes the server held in the field [server] and no other; after
    it the field holds the same server or none. *)
Lemma ApiServer_stop_cases this env :
  (server this = None
   ∧ ApiServer_stop this env = (Some (Resolved tt), (this, env)))
  ∨ (∃ s, server this = Some s
          ∧ (server (ApiServer_stop this env).2.1 = Some s
             ∨ server (ApiServer_stop this env).2.1 = None)
          ∧ port (ApiServer_stop this env).2.1 = port this
          ∧ instance_taskIdMap (ApiServer_stop this env).2.1
            = instance_taskIdMap this
          ∧ net_calls (ApiServer_stop this env).2.2
            = net_calls env ++ [server_close s]).
Proof.
  unfold ApiServer_stop. destruct (server this) as [s |] eqn:Hs; [| by left].
  right. exists s. split; [done |].
  destruct (close s (net env)) as [[|] n]; cbn; rewrite ?Hs; auto.
Qed.

(** X12. [start] then [stop], when [listen] calls back with the server [s]
    and [close] calls back: both promises are fulfilled, the object ends with
    no server, with the port asked for (3000 when none was given) and with
    its map as it was; [listen] and then [close] on [s] were called, and the
    two lines were logged in that order. *)
Theorem start_then_stop (port_arg : option Z) this env s n n' :
  listen (default 3000 port_arg) (net env) = (ListenCalledBack s, n) →
  close s n = (true, n') →
  let started := ApiServer_start port_arg this env in
  let stopped := ApiServer_stop started.2.1 started.2.2 in
  started.1 = Some (Resolved tt)
  ∧ server started.2.1 = Some s
  ∧ stopped.1 = Some (Resolved tt)
  ∧ stopped.2.1 = {| server := None; port := default 3000 port_arg;
                     instance_taskIdMap := instance_taskIdMap this |}
  ∧ net_calls stopped.2.2
    = net_calls env ++ [app_listen (default 3000 port_arg); server_close s]
  ∧ logged stopped.2.2
    = logged env ++ ["Cline API server started on port "
                       +:+ pretty (default 3000 port_arg);
                     "Cline API server stopped"]
  ∧ commands stopped.2.2 = commands env
  ∧ editor stopped.2.2 = editor env.
Proof.
  intros Hl Hc started stopped. subst stopped started.
  unfold ApiServer_start. cbn [port]. rewrite Hl. cbn.
  unfold ApiServer_stop. cbn. rewrite Hc. cbn.
  by rewrite <- !app_assoc.
Qed.

(** X13. When [stop] fulfils its promise the object holds no server any
    more, and every further [stop] fulfils its promise at once and changes
    nothing: no call of [close], no line logged. *)
Theorem stop_again_does_nothing this env :
  (ApiServer_stop this env).1 = Some (Resolved tt) →
  let stopped := ApiServer_stop this env in
  server stopped.2.1 = None
  ∧ ApiServer_stop stopped.2.1 stopped.2.2
    = (Some (Resolved tt), (stopped.2.1, stopped.2.2)).
Proof.
  unfold ApiServer_stop.
  destruct (server this) as [s |] eqn:Hs;
    [destruct (close s (net env)) as [[|] n] |]; cbn; rewrite ?Hs; done.
Qed.

(** X14. When [listen] throws, [start] rejects its promise with the value
    thrown and logs one line that begins with
    ["Error starting Cline API server: "]; the field [server] is as it was, so
    a server started before is still the one [stop] will close, while the
    field [port] already holds the port that could not be opened. *)
Theorem failed_start_keeps_server (port_arg : option Z) this env e n :
  listen (default 3000 port_arg) (net env) = (ListenThrew e, n) →
  let started := ApiServer_start port_arg this env in
  started.1 = Some (Rejected e)
  ∧ server started.2.1 = server this
  ∧ port started.2.1 = default 3000 port_arg
  ∧ instance_taskIdMap started.2.1 = instance_taskIdMap this
  ∧ (∃ text, logged started.2.2
             = logged env ++ ["Error starting Cline API server: " +:+ text])
  ∧ net_calls started.2.2 = net_calls env ++ [app_listen (default 3000 port_arg)].
Proof.
  intros Hl started. subst started.
  unfold ApiServer_start. cbn [port]. rewrite Hl.
  repeat split. by eexists.
Qed.

(** The map of the object across one event. *)
Lemma step_instance (ev : Event) p this :
  apiServerInstance p = Some this →
  ∃ this', apiServerInstance (step ev p) = Some this'
    ∧ (∀ a, is_Some (instance_taskIdMap this !! a) →
            is_Some (instance_taskIdMap this' !! a))
    ∧ ((∀ r, ev ≠ request r) →
       instance_taskIdMap this' = instance_taskIdMap this).
Proof.
  intros Hp. destruct ev as [port_arg | | r]; cbn [step].
  - unfold startApiServer, ApiServer_start. rewrite Hp. cbn [port].
    destruct (listen _ _) as [[s | s | e] n]; cbn; eauto.
  - unfold stopApiServer, ApiServer_stop. rewrite Hp.
    destruct (server this) as [s |]; [| by eauto].
    destruct (close s _) as [[|] n]; cbn; eauto.
  - rewrite Hp. unfold ApiServer_handle.
    destruct (run (route r) (world_of this (env p))) as [out w] eqn:Hr.
    eexists. split; [done |]. cbn [instance_taskIdMap].
    split; [| by intros Hne; destruct (Hne r)].
    intros a Ha.
    replace w with (run (route r) (world_of this (env p))).2 by by rewrite Hr.
    destruct (route_taskIdMap r (world_of this (env p)) a)
      as [-> | (? & t & _ & _ & _ & _ & ->)]; eauto.
Qed.

(** X15. Once the object exists it exists for ever, and no sequence of
    calls of [startApiServer] and [stopApiServer] and of requests removes a
    binding from its map; calls of [startApiServer] and [stopApiServer] alone
    leave the map exactly as it was, so the bindings outlive a stop and a new
    start. *)
Theorem bindings_outlive_stop_and_start (evs : list Event) p this :
  apiServerInstance p = Some this →
  ∃ this', apiServerInstance (steps evs p) = Some this'
    ∧ (∀ a, is_Some (instance_taskIdMap this !! a) →
            is_Some (instance_taskIdMap this' !! a))
    ∧ (Forall (λ ev, ∀ r, ev ≠ request r) evs →
       instance_taskIdMap this' = instance_taskIdMap this).
Proof.
  revert p this. induction evs as [| ev evs IH]; intros p this Hp.
  - exists this. by cbn.
  - rewrite steps_cons.
    destruct (step_instance ev p this Hp) as (this1 & Hp1 & Hkeep1 & Hsame1).
    destruct (IH _ _ Hp1) as (this2 & Hp2 & Hkeep2 & Hsame2).
    exists this2. split; [done |]. split; [by auto |].
    intros [Hev Hevs]%Forall_cons. by rewrite Hsame2, Hsame1.
Qed.

(** X16. Only [startApiServer] creates the object: from the module as
    loaded, calls of [stopApiServer] and requests change nothing at all. *)
Theorem nothing_happens_before_start (evs : list Event) (e : Env H L) :
  Forall (λ ev, ∀ port_arg, ev ≠ call_startApiServer port_arg) evs →
  steps evs (loaded e) = loaded e.
Proof.
  induction evs as [| ev evs IH]; [done |].
  intros [Hev Hevs]%Forall_cons. rewrite steps_cons.
  destruct ev as [port_arg | | r]; [by destruct (Hev port_arg) | by apply IH..].
Qed.

(** [startApiServer] when [listen] calls back. *)
Lemma startApiServer_called_back (port_arg : option Z) p s n :
  listen (default 3000 port_arg) (net (env p)) = (ListenCalledBack s, n) →
  startApiServer port_arg p
  = (Some (Resolved tt),
     {| apiServerInstance :=
          Some {| server := Some s; port := default 3000 port_arg;
                  instance_taskIdMap :=
                    instance_taskIdMap (default new_Instance (apiServerInstance p)) |};
        env := {| editor := editor (env p); commands := commands (env p);
                  logged := logged (env p)
                            ++ ["Cline API server started on port "
                                  +:+ pretty (default 3000 port_arg)];
                  net := n;
                  net_calls := net_calls (env p)
                               ++ [app_listen (default 3000 port_arg)] |} |}).
Proof.
  intros Hl. unfold startApiServer, ApiServer_start.
  cbn [port default from_option id]. rewrite Hl.
  by destruct (apiServerInstance p).
Qed.

(** X17. A second [startApiServer] makes the object forget the server of
    the first: with [listen] calling back with [s1] and then with another
    server [s2], the object holds [s2], and whatever calls of [stopApiServer]
    and requests follow, [close] is never called on [s1]. *)
Theorem second_start_orphans_first_server (port1 port2 : option Z) p s1 s2 n1 n2
    (evs : list Event) :
  listen (default 3000 port1) (net (env p)) = (ListenCalledBack s1, n1) →
  listen (default 3000 port2) n1 = (ListenCalledBack s2, n2) →
  s1 ≠ s2 →
  Forall (λ ev, ∀ port_arg, ev ≠ call_startApiServer port_arg) evs →
  let p2 := steps [call_startApiServer port1; call_startApiServer port2] p in
  server <$> apiServerInstance p2 = Some (Some s2)
  ∧ (server_close s1 ∈ net_calls (env (steps evs p2)) →
     server_close s1 ∈ net_calls (env p)).
Proof.
  intros Hl1 Hl2 Hne Hevs p2.
  assert (∃ this, apiServerInstance p2 = Some this
            ∧ server this = Some s2
            ∧ net_calls (env p2)
              = net_calls (env p) ++ [app_listen (default 3000 port1);
                                      app_listen (default 3000 port2)])
    as (this2 & Hp2 & Hs2 & Hcalls2).
  { subst p2. unfold steps. cbn [foldl step].
    rewrite (startApiServer_called_back port1 p s1 n1 Hl1). cbn [snd].
    rewrite (startApiServer_called_back port2 _ s2 n2) by exact Hl2. cbn.
    eexists. split; [done |]. split; [done |]. by rewrite <- app_assoc. }
  split; [by rewrite Hp2; cbn; rewrite Hs2 |].
  assert (∀ q, (∃ this, apiServerInstance q = Some this
                  ∧ (server this = Some s2 ∨ server this = None))
               → (server_close s1 ∈ net_calls (env q) →
                  server_close s1 ∈ net_calls (env p)) →
               server_close s1 ∈ net_calls (env (steps evs q)) →
               server_close s1 ∈ net_calls (env p)) as Hinv.
  { clear p2 this2 Hp2 Hs2 Hcalls2.
    induction Hevs as [| ev evs Hev Hevs IH]; intros q (this & Hq & Hs) Hold;
      [done |].
    rewrite steps_cons. apply IH.
    - destruct ev as [port_arg | | r]; cbn [step].
      + by destruct (Hev port_arg).
      + unfold stopApiServer. rewrite Hq.
        destruct (ApiServer_stop this (env q)) as [promise [this' e']] eqn:Hstop.
        eexists. split; [done |].
        destruct (ApiServer_stop_cases this (env q))
          as [[_ Hidle] | (s & Hsome & Hafter & _)].
        * rewrite Hidle in Hstop. by injection Hstop as _ <- _.
        * rewrite Hstop in Hafter. cbn in Hafter.
          destruct Hs as [Hs | Hs]; [| congruence].
          rewrite Hs in Hsome. injection Hsome as <-. done.
      + rewrite Hq. unfold ApiServer_handle.
        destruct (run (route r) _) as [out w]. by eexists.
    - destruct ev as [port_arg | | r]; cbn [step].
      + by destruct (Hev port_arg).
      + unfold stopApiServer. rewrite Hq.
        destruct (ApiServer_stop this (env q)) as [promise [this' e']] eqn:Hstop.
        cbn [snd env].
        destruct (ApiServer_stop_cases this (env q))
          as [[_ Hidle] | (s & Hsome & _ & _ & _ & Hcalls)].
        * rewrite Hidle in Hstop. by injection Hstop as _ _ <-.
        * rewrite Hstop in Hcalls. cbn [snd] in Hcalls. rewrite Hcalls.
          rewrite elem_of_app, list_elem_of_singleton.
          intros [? | [= ->]]; [by apply Hold |].
          destruct Hs as [Hs | Hs]; congruence.
      + rewrite Hq. unfold ApiServer_handle.
        destruct (run (route r) _) as [out w]. by cbn. }
  apply Hinv.
  - exists this2. auto.
  - rewrite Hcalls2, elem_of_app. intros [? | Hin]; [done |].
    apply elem_of_cons in Hin as [[=] | Hin].
    apply elem_of_cons in Hin as [[=] | Hin].
    by apply elem_of_nil in Hin.
Qed.

End LifecycleProperties.

(** * The further properties on a scripted editor and a scripted network *)

Lemma create_issues_one_command_witness :
  calls (run (handleNewTask (new_task "fix bug" (Some "c1"))) editor_T1).2
  = [cline_startNewTask "fix bug" []].
Proof.
  exact (proj1 (create_issues_one_command (new_task "fix bug" (Some "c1"))
                  editor_T1 eq_refl)).
Defined.

Lemma continue_without_message_witness :
  run (handleContinueTask (continue_task (Some "T1") (Some "c1") "")) bound_c1
  = (Val (error_response 400 "Message is required"), bound_c1).
Proof.
  apply (continue_without_message (continue_task (Some "T1") (Some "c1") "")).
  by right.
Defined.

Lemma answer_400_leaves_world_witness :
  (run (route (POST_tasks_continue (continue_task None (Some "c2") "hi")))
     bound_c1).2 = bound_c1.
Proof.
  exact (answer_400_leaves_world
           (POST_tasks_continue (continue_task None (Some "c2") "hi")) bound_c1
           (error_response 400 "Valid taskId or customId is required")
           eq_refl eq_refl).
Defined.

Lemma answer_500_is_logged_witness :
  (status (error_response 500 "No active Cline instance") = 500
   ∧ (∃ line, logs (run (route (POST_tasks_new failing_request)) editor_failing).2
              = logs editor_failing ++ [line])
   ∧ taskIdMap (run (route (POST_tasks_new failing_request)) editor_failing).2
     = taskIdMap editor_failing)
  ∨ ((status (error_response 500 "No active Cline instance") = 200
      ∨ status (error_response 500 "No active Cline instance") = 400)
     ∧ logs (run (route (POST_tasks_new failing_request)) editor_failing).2
       = logs editor_failing).
Proof.
  exact (answer_500_is_logged (POST_tasks_new failing_request) editor_failing
           (error_response 500 "No active Cline instance") eq_refl).
Defined.

Lemma null_answer_keeps_old_binding_witness :
  (run (handleNewTask (new_task "fix it again" (Some "c1"))) bound_c1).1
  = Val {| status := 200;
           body := JObject [("success", JBool true); ("taskId", JNull);
                            ("customId", JString "c1")] |}
  ∧ calls (run (handleContinueTask (continue_task None (Some "c1") "hi"))
             (run (handleNewTask (new_task "fix it again" (Some "c1")))
                bound_c1).2).2
    = [cline_startNewTask "fix bug" []; cline_startNewTask "fix it again" [];
       cline_addMessageToTask "T1" "hi" []].
Proof.
  exact (null_answer_keeps_old_binding
           (new_task "fix it again" (Some "c1"))
           (continue_task None (Some "c1") "hi") bound_c1 "c1" "T1"
           {| tasks := []; results := [] |}
           ltac:(done) ltac:(done) eq_refl eq_refl eq_refl eq_refl eq_refl
           eq_refl eq_refl).
Defined.

Lemma explicit_taskId_ignores_map_witness :
  (run (handleContinueTask (continue_task (Some "T7") (Some "c1") "hi"))
     (with_taskIdMap ∅ bound_c1)).1
  = (run (handleContinueTask (continue_task (Some "T7") (Some "c1") "hi"))
       bound_c1).1.
Proof.
  exact (proj1 (explicit_taskId_ignores_map
                  (continue_task (Some "T7") (Some "c1") "hi") bound_c1 ∅
                  eq_refl)).
Defined.

Lemma map_grows_by_creates_only_witness :
  taskIdMap (serve [GET_health;
                    POST_tasks_continue (continue_task None (Some "c1") "hi")]
               bound_c1).2
  = taskIdMap bound_c1.
Proof.
  exact (proj2 (map_grows_by_creates_only
                  [GET_health;
                   POST_tasks_continue (continue_task None (Some "c1") "hi")]
                  bound_c1)
           ltac:(by repeat constructor)).
Defined.

Lemma map_holds_no_empty_string_witness : "c1" ≠ "" ∧ "T1" ≠ "".
Proof.
  exact (map_holds_no_empty_string bound_c1 "c1" "T1" bound_c1_reachable eq_refl).
Defined.

Lemma continues_by_alias_reach_same_task_witness :
  calls (serve [POST_tasks_continue (continue_task None (Some "c1") "one");
                POST_tasks_continue (continue_task None (Some "c1") "two")]
           bound_c1).2
  = [cline_startNewTask "fix bug" []; cline_addMessageToTask "T1" "one" [];
     cline_addMessageToTask "T1" "two" []].
Proof.
  exact (continues_by_alias_reach_same_task
           [continue_task None (Some "c1") "one";
            continue_task None (Some "c1") "two"] bound_c1 "c1" "T1"
           ltac:(done) ltac:(done) eq_refl ltac:(by repeat constructor)).
Defined.

Lemma start_then_stop_witness :
  (ApiServer_stop
     (ApiServer_start (Some 8080) new_Instance (env_with [ListenCalledBack 7%nat])).2.1
     (ApiServer_start (Some 8080) new_Instance (env_with [ListenCalledBack 7%nat])).2.2).2.1
  = {| server := None; port := 8080; instance_taskIdMap := ∅ |}.
Proof.
  exact (proj1 (proj2 (proj2 (proj2 (start_then_stop (Some 8080) new_Instance
    (env_with [ListenCalledBack 7%nat]) 7%nat
    {| listens := []; closes := [] |} {| listens := []; closes := [] |}
    eq_refl eq_refl))))).
Defined.

Lemma stop_again_does_nothing_witness :
  server (ApiServer_stop instance_7 (env_with [])).2.1 = None
  ∧ ApiServer_stop (ApiServer_stop instance_7 (env_with [])).2.1
      (ApiServer_stop instance_7 (env_with [])).2.2
    = (Some (Resolved tt),
       ((ApiServer_stop instance_7 (env_with [])).2.1,
        (ApiServer_stop instance_7 (env_with [])).2.2)).
Proof. exact (stop_again_does_nothing instance_7 (env_with []) eq_refl). Defined.

Lemma failed_start_keeps_server_witness :
  (ApiServer_start (Some 70000) instance_7 (env_with [ListenThrew bad_port])).1
  = Some (Rejected bad_port)
  ∧ server (ApiServer_start (Some 70000) instance_7
              (env_with [ListenThrew bad_port])).2.1
    = Some 7%nat
  ∧ port (ApiServer_start (Some 70000) instance_7
            (env_with [ListenThrew bad_port])).2.1
    = 70000.
Proof.
  pose proof (failed_start_keeps_server (Some 70000) instance_7
    (env_with [ListenThrew bad_port]) bad_port
    {| listens := []; closes := [] |} eq_refl) as (Hp & Hs & Hport & _).
  split; [exact Hp | split; [exact Hs | exact Hport]].
Defined.

Lemma bindings_outlive_stop_and_start_witness :
  ∃ this',
    apiServerInstance
      (steps [call_stopApiServer; call_startApiServer (Some 8080)] started_c1)
    = Some this'
    ∧ (∀ a, is_Some (({["c1" := "T1"]} : gmap string string) !! a) →
            is_Some (instance_taskIdMap this' !! a))
    ∧ (Forall (λ ev, ∀ r, ev ≠ request r)
         [call_stopApiServer; call_startApiServer (Some 8080)] →
       instance_taskIdMap this' = {["c1" := "T1"]}).
Proof.
  exact (bindings_outlive_stop_and_start
           [call_stopApiServer; call_startApiServer (Some 8080)] started_c1
           {| server := Some 0%nat; port := 3000;
              instance_taskIdMap := {["c1" := "T1"]} |} eq_refl).
Defined.

Lemma nothing_happens_before_start_witness :
  steps [call_stopApiServer; request (POST_tasks_new (new_task "fix bug" None));
         call_stopApiServer] (loaded (env_with []))
  = loaded (env_with []).
Proof.
  exact (nothing_happens_before_start
           [call_stopApiServer; request (POST_tasks_new (new_task "fix bug" None));
            call_stopApiServer] (env_with [])
           ltac:(by repeat constructor)).
Defined.

Lemma second_start_orphans_first_server_witness :
  server <$> apiServerInstance
               (steps [call_startApiServer None; call_startApiServer (Some 8080)]
                  (loaded (env_with [ListenCalledBack 1%nat; ListenCalledBack 2%nat])))
  = Some (Some 2%nat)
  ∧ (server_close 1%nat
       ∈ net_calls (env (steps [call_stopApiServer; call_stopApiServer]
          (steps [call_startApiServer None; call_startApiServer (Some 8080)]
             (loaded (env_with [ListenCalledBack 1%nat; ListenCalledBack 2%nat]))))) →
     server_close 1%nat
       ∈ net_calls (env (loaded (env_with [ListenCalledBack 1%nat;
                                           ListenCalledBack 2%nat])))).
Proof.
  exact (second_start_orphans_first_server None (Some 8080)
           (loaded (env_with [ListenCalledBack 1%nat; ListenCalledBack 2%nat]))
           1%nat 2%nat
           {| listens := [ListenCalledBack 2%nat]; closes := [] |}
           {| listens := []; closes := [] |}
           [call_stopApiServer; call_stopApiServer]
           eq_refl eq_refl ltac:(done) ltac:(by repeat constructor)).
Defined.
